(** * cola/gitcmds.py: commands and queries for Git

    A shallow embedding of [src/cola/gitcmds.py] (Python 2) together with the
    properties of its branch queries, diff helper and patch-set exporter.

    Conventions of the embedding:
    - Python [str] values are [string]; a Python name that may hold [None]
      is a [pyval].
    - A function that can raise returns an [outcome].
    - The collaborators that are not part of the module ([cola.model()],
      [cola.gitcmd], [cola.core], [cola.utils] and the [os] calls) are
      records of observations or Section variables. *)

From stdpp Require Import gmap strings list.
From Stdlib Require Import ZArith Ascii String Lia.

Local Open Scope Z_scope.
Local Open Scope nat_scope.

(** ** Python built-ins used by the module *)

Module Py.

(** Exceptions the modelled code can raise. *)
Inductive exn : Type :=
| IndexError
| ValueError
| UnboundLocalError
| TypeError.

Inductive outcome (A : Type) : Type :=
| Ok (a : A)
| Raise (e : exn).
Arguments Ok {A} a.
Arguments Raise {A} e.

(** A name that holds either [None] or a [str]. *)
Inductive pyval : Type :=
| PyNone
| PyStr (s : string).

(** ['%s' % v] *)
Definition fmt_s (v : pyval) : string :=
  match v with
  | PyNone => "None"
  | PyStr s => s
  end.

(** Truth value of [None] or a [str]. *)
Definition truthy (v : pyval) : bool :=
  match v with
  | PyNone => false
  | PyStr EmptyString => false
  | PyStr _ => true
  end.

Definition ascii_eqb (a b : ascii) : bool := bool_decide (a = b).
Definition str_eqb (a b : string) : bool := bool_decide (a = b).

Definition LF : ascii := ascii_of_nat 10.
Definition CR : ascii := ascii_of_nat 13.
(** The one-character string ['\n']. *)
Definition NL : string := String LF EmptyString.

#[global] Instance outcome_ret : MRet outcome := λ A a, Ok a.
#[global] Instance outcome_bind : MBind outcome := λ A B f m,
  match m with
  | Ok a => f a
  | Raise e => Raise e
  end.

(** [s.startswith(p)] *)
Fixpoint startswith (s p : string) {struct p} : bool :=
  match p, s with
  | EmptyString, _ => true
  | String _ _, EmptyString => false
  | String a p', String b s' => ascii_eqb a b && startswith s' p'
  end.

(** [s[n:]] for [n >= 0] *)
Fixpoint str_drop (n : nat) (s : string) : string :=
  match n, s with
  | O, _ => s
  | S _, EmptyString => EmptyString
  | S n', String _ s' => str_drop n' s'
  end.

(** [s[:n]] for [n >= 0] *)
Fixpoint str_take (n : nat) (s : string) : string :=
  match n, s with
  | O, _ => EmptyString
  | S _, EmptyString => EmptyString
  | S n', String c s' => String c (str_take n' s')
  end.

(** [s.endswith(p)] *)
Definition endswith (s p : string) : bool :=
  (String.length p <=? String.length s) &&
  str_eqb (str_drop (String.length s - String.length p) s) p.

(** [sub in s] *)
Fixpoint contains (sub s : string) : bool :=
  startswith s sub ||
  match s with
  | EmptyString => false
  | String _ s' => contains sub s'
  end.

(** The characters [str.strip()] and [str.split()] treat as blank:
    space, tab, line feed, vertical tab, form feed, carriage return. *)
Definition is_space (c : ascii) : bool :=
  let n := nat_of_ascii c in
  (n =? 32) || ((9 <=? n) && (n <=? 13)).

Fixpoint lstrip (s : string) : string :=
  match s with
  | EmptyString => EmptyString
  | String c s' => if is_space c then lstrip s' else s
  end.

Fixpoint rstrip (s : string) : string :=
  match s with
  | EmptyString => EmptyString
  | String c s' =>
      match rstrip s' with
      | EmptyString => if is_space c then EmptyString else String c EmptyString
      | r => String c r
      end
  end.

(** [s.strip()] *)
Definition strip (s : string) : string := lstrip (rstrip s).

Definition snoc (s : string) (c : ascii) : string :=
  s +:+ String c EmptyString.

Definition flush (cur : string) (k : list string) : list string :=
  match cur with
  | EmptyString => k
  | _ => cur :: k
  end.

(** [s.split()]: split on runs of blanks, no empty fields. *)
Fixpoint split_ws_from (cur s : string) : list string :=
  match s with
  | EmptyString => flush cur []
  | String c s' =>
      if is_space c then flush cur (split_ws_from EmptyString s')
      else split_ws_from (snoc cur c) s'
  end.
Definition split_ws (s : string) : list string := split_ws_from EmptyString s.

(** [s.split(sep)] for a one-character separator: never the empty list. *)
Fixpoint split_on (sep : ascii) (s : string) : list string :=
  match s with
  | EmptyString => [EmptyString]
  | String c s' =>
      if ascii_eqb c sep then EmptyString :: split_on sep s'
      else match split_on sep s' with
           | h :: t => String c h :: t
           | [] => [String c EmptyString]
           end
  end.

(** [s.splitlines()] on a [str]: the line ends are LF, CR and CR LF, and a
    final line end opens no further line. *)
Fixpoint splitlines_from (cur s : string) : list string :=
  match s with
  | EmptyString => flush cur []
  | String c s' =>
      if ascii_eqb c LF then cur :: splitlines_from EmptyString s'
      else if ascii_eqb c CR then
        match s' with
        | String c' s'' =>
            if ascii_eqb c' LF then cur :: splitlines_from EmptyString s''
            else cur :: splitlines_from EmptyString s'
        | EmptyString => cur :: splitlines_from EmptyString s'
        end
      else splitlines_from (snoc cur c) s'
  end.
Definition splitlines (s : string) : list string :=
  splitlines_from EmptyString s.

(** [s.index(c)] for a one-character [c]; [None] stands for ValueError. *)
Fixpoint index_char (c : ascii) (s : string) : option nat :=
  match s with
  | EmptyString => None
  | String a s' => if ascii_eqb a c then Some 0 else S <$> index_char c s'
  end.

(** [s.replace(a, b)] for one-character [a] and [b]. *)
Fixpoint replace_char (a b : ascii) (s : string) : string :=
  match s with
  | EmptyString => EmptyString
  | String c s' =>
      String (if ascii_eqb c a then b else c) (replace_char a b s')
  end.

(** [sep.join(l)] *)
Fixpoint join (sep : string) (l : list string) : string :=
  match l with
  | [] => EmptyString
  | [x] => x
  | x :: l' => x +:+ sep +:+ join sep l'
  end.

(** [l.index(x)]; [None] stands for ValueError. *)
Fixpoint list_index (x : string) (l : list string) : option nat :=
  match l with
  | [] => None
  | y :: l' => if str_eqb y x then Some 0 else S <$> list_index x l'
  end.

Definition NUL : ascii := ascii_of_nat 0.

(** [s.lstrip(c)], [s.rstrip(c)] and [s.strip(c)] for a one-character [c]. *)
Fixpoint lstrip_char (c : ascii) (s : string) : string :=
  match s with
  | EmptyString => EmptyString
  | String a s' => if ascii_eqb a c then lstrip_char c s' else s
  end.

Fixpoint rstrip_char (c : ascii) (s : string) : string :=
  match s with
  | EmptyString => EmptyString
  | String a s' =>
      match rstrip_char c s' with
      | EmptyString => if ascii_eqb a c then EmptyString else String a EmptyString
      | r => String a r
      end
  end.

Definition strip_char (c : ascii) (s : string) : string :=
  lstrip_char c (rstrip_char c s).

(** The first element of [l] equal to [x], as a [for] loop with a test on
    [==] finds it. *)
Fixpoint first_equal (x : string) (l : list string) : option string :=
  match l with
  | [] => None
  | y :: l' => if str_eqb y x then Some y else first_equal x l'
  end.

End Py.
Import Py.

(** ** The process-wide state and the monad of stateful queries *)

(** [class _current_branch]: the stat cache of [current_branch()].  The
    modification time is kept as an integer number of clock ticks. *)
Record cache : Type := Cache {
  st_mtime : Z;
  value : pyval
}.

(** The class attributes as the module body initialises them. *)
Definition initial_cache : cache := Cache 0%Z PyNone.

(** Accesses to the HEAD ref-pointer made by [current_branch()]. *)
Inductive fs_event : Type :=
| EvStat
| EvIslink
| EvRealpath
| EvIsfile
| EvSlurp.

#[global] Instance fs_event_eq_dec : EqDecision fs_event.
Proof. solve_decision. Defined.

(** What the [os] and [cola.utils] calls of [current_branch()] observe. *)
Record filesystem : Type := Filesystem {
  (** [os.path.abspath(model.git_repo_path('HEAD'))] *)
  fs_head : string;
  (** [os.stat(head).st_mtime]; [None] when [os.stat] raises OSError *)
  fs_stat : option Z;
  (** [os.path.islink(head)] *)
  fs_islink : bool;
  (** [os.path.realpath(model.git_repo_path('refs', 'heads'))] *)
  fs_refs_heads : string;
  (** [os.path.isfile(head)] *)
  fs_isfile : bool;
  (** [utils.slurp(head)] *)
  fs_slurp : string
}.

(** The mutable world: the cache and the log of file-system accesses. *)
Record world : Type := World {
  branch_cache : cache;
  fs_log : list fs_event
}.

Definition M (A : Type) : Type := world → outcome A * world.

#[global] Instance M_ret : MRet M := λ A a w, (Ok a, w).
#[global] Instance M_bind : MBind M := λ A B f m w,
  match m w with
  | (Ok a, w') => f a w'
  | (Raise e, w') => (Raise e, w')
  end.

Definition raise {A : Type} (e : exn) : M A := λ w, (Raise e, w).
Definition emit (ev : fs_event) : M unit :=
  λ w, (Ok (), World (branch_cache w) (fs_log w ++ [ev])).
Definition read_cache : M cache := λ w, (Ok (branch_cache w), w).
Definition set_st_mtime (m : Z) : M unit :=
  λ w, (Ok (), World (Cache m (value (branch_cache w))) (fs_log w)).
Definition set_value (v : pyval) : M unit :=
  λ w, (Ok (), World (Cache (st_mtime (branch_cache w)) v) (fs_log w)).

(** Reading the local [st], which is bound only when [os.stat] returned. *)
Definition local_st (st : option Z) : M Z :=
  match st with
  | Some m => mret m
  | None => raise UnboundLocalError
  end.

Definition BACKSLASH : ascii := ascii_of_nat 92.
Definition SLASH : ascii := ascii_of_nat 47.
Definition ref_prefix : string := "ref: refs/heads/".

(** [current_branch()], lines 56-91.  [head] is already absolute, so the
    second [os.path.abspath(head)] of line 71 is [head] itself. *)
Definition current_branch (fs : filesystem) : M pyval :=
  let head := fs_head fs in
  emit EvStat ;;
  let st := fs_stat fs in
  c ← read_cache ;
  if match st with
     | Some m => bool_decide (st_mtime c = m)
     | None => false
     end
  then mret (value c)
  else
    emit EvIslink ;;
    if fs_islink fs then
      emit EvRealpath ;;
      let refs_heads := fs_refs_heads fs in
      let path := replace_char BACKSLASH SLASH head in
      if startswith path (refs_heads +:+ "/") then
        let value := str_drop (String.length refs_heads + 1) path in
        set_value (PyStr value) ;;
        m ← local_st st ;
        set_st_mtime m ;;
        mret (PyStr value)
      else mret (PyStr "")
    else
      emit EvIsfile ;;
      if fs_isfile fs then
        emit EvSlurp ;;
        let value := strip (fs_slurp fs) in
        let value :=
          if startswith value ref_prefix
          then str_drop (String.length ref_prefix) value
          else value in
        m ← local_st st ;
        set_st_mtime m ;;
        set_value (PyStr value) ;;
        mret (PyStr value)
      else mret (PyStr "").

Definition run {A : Type} (m : M A) (c : cache) : outcome A * world :=
  m (World c []).

(** *** The stores of a call, as another thread may see them

    [current_branch()] takes no lock, so a reader on another thread can
    run between any two of its statements.  What such a reader can find in
    [_current_branch] is the cache as the call found it and the cache
    after each attribute store of the call.  [observed] keeps that list
    beside the world, and [current_branch_observed] is [current_branch()]
    again, statement by statement, with every store recorded. *)
Record observed : Type := Observed {
  ob_world : world;
  ob_caches : list cache
}.

Definition T (A : Type) : Type := observed → outcome A * observed.

#[global] Instance T_ret : MRet T := λ A a o, (Ok a, o).
#[global] Instance T_bind : MBind T := λ A B f m o,
  match m o with
  | (Ok a, o') => f a o'
  | (Raise e, o') => (Raise e, o')
  end.

(** A statement that stores nothing in the cache. *)
Definition quiet {A : Type} (m : M A) : T A := λ o,
  let '(r, w) := m (ob_world o) in (r, Observed w (ob_caches o)).

(** An attribute store: the cache it leaves is there to be seen. *)
Definition store (m : M unit) : T unit := λ o,
  let '(r, w) := m (ob_world o) in
  (r, Observed w (ob_caches o ++ [branch_cache w])).

(** [current_branch()], lines 56-91, with its stores recorded. *)
Definition current_branch_observed (fs : filesystem) : T pyval :=
  let head := fs_head fs in
  quiet (emit EvStat) ;;
  let st := fs_stat fs in
  c ← quiet read_cache ;
  if match st with
     | Some m => bool_decide (st_mtime c = m)
     | None => false
     end
  then mret (value c)
  else
    quiet (emit EvIslink) ;;
    if fs_islink fs then
      quiet (emit EvRealpath) ;;
      let refs_heads := fs_refs_heads fs in
      let path := replace_char BACKSLASH SLASH head in
      if startswith path (refs_heads +:+ "/") then
        let value := str_drop (String.length refs_heads + 1) path in
        store (set_value (PyStr value)) ;;
        m ← quiet (local_st st) ;
        store (set_st_mtime m) ;;
        mret (PyStr value)
      else mret (PyStr "")
    else
      quiet (emit EvIsfile) ;;
      if fs_isfile fs then
        quiet (emit EvSlurp) ;;
        let value := strip (fs_slurp fs) in
        let value :=
          if startswith value ref_prefix
          then str_drop (String.length ref_prefix) value
          else value in
        m ← quiet (local_st st) ;
        store (set_st_mtime m) ;;
        store (set_value (PyStr value)) ;;
        mret (PyStr value)
      else mret (PyStr "").

Definition observe {A : Type} (m : T A) (c : cache) : outcome A * observed :=
  m (Observed (World c []) []).

(** ** The collaborators and the queries built on them *)

(** The [filename] argument of [diff_helper]: [None], a path or a list. *)
Inductive filename_arg : Type :=
| NoFile
| OneFile (f : string)
| FileList (l : list string).

Definition filename_truthy (f : filename_arg) : bool :=
  match f with
  | NoFile => false
  | OneFile EmptyString => false
  | OneFile _ => true
  | FileList [] => false
  | FileList _ => true
  end.

(** What [diff_helper] returns: a text, or the pair (headers, text). *)
Inductive diff_result : Type :=
| Text (s : string)
| HeaderAndText (h s : string).

(** The keyword arguments [format_patchsets] hands to [export_patchset]. *)
Record format_patch_kwargs : Type := Kwargs {
  kw_n : bool;
  kw_thread : bool;
  kw_patch_with_stat : bool
}.

(** State of the line loop of [diff_helper]. *)
Record diff_acc : Type := DiffAcc {
  acc_start : bool;
  acc_headers : list string;
  acc_output : string
}.

(** State of the grouping loop of [format_patchsets]. *)
Record grouping : Type := Grouping {
  cur_master_idx : nat;
  patches_to_export : list (list string);
  patchset_idx : nat
}.

Definition del_tag : string := "deleted file mode ".
Definition refs_heads_prefix : string := "refs/heads/".

Section Gitcmds.

(** [cola.model()]: [has_param(k)] is [is_Some (params !! k)] and
    [param(k)] the value found. *)
Variable params : gmap string string.
(** [cola.model().diff_context] *)
Variable diff_context : Z.
(** [git.for_each_ref(refs, format='%(refname)')] *)
Variable git_for_each_ref : string → string.
(** [git.show(sha1)] *)
Variable git_show : string → string.
(** [git.diff(R=reverse, M=True, no_color=True, cached=cached,
    unified=diff_context, with_raw_output=True, with_stderr=True, *argv)],
    as a function of [reverse], [cached], [unified] and [argv]. *)
Variable git_diff : bool → bool → Z → list string → string.
(** [git.format_patch('-o', output, range, with_stderr=True,
    with_status=True, **kwargs)], as a function of [output], [range] and
    the keyword arguments. *)
Variable git_format_patch : string → string → format_patch_kwargs → Z * string.
(** [core.decode] and [core.encode] *)
Variable core_decode : string → string.
Variable core_encode : string → string.
(** [os.path.exists(core.encode(filename))] *)
Variable path_exists : filename_arg → bool.
(** [cola.model().local_config(key, default)] *)
Variable local_config : string → string → string.
(** [git.diff(arg, name_only=True, z=True)] *)
Variable git_diff_name_only : string → string.
(** [git.ls_files(z=True)] for [false] and
    [git.ls_files(z=True, others=True, exclude_standard=True)] for [true] *)
Variable git_ls_files : bool → string.

(** [for_each_ref_basename(refs)], lines 107-111. *)
Definition for_each_ref_basename (refs : string) : list string :=
  let output := splitlines (git_for_each_ref refs) in
  let non_heads := filter (λ x, ¬ endswith x "/HEAD") output in
  (λ x, str_drop (String.length refs) x) <$> non_heads.

(** [branch_list(remote)], lines 94-104. *)
Definition branch_list (remote : bool) : list string :=
  if remote then for_each_ref_basename "refs/remotes/"
  else for_each_ref_basename "refs/heads/".

(** [tracked_branch(branch)], lines 114-132. *)
Definition tracked_branch (fs : filesystem) (branch : pyval) : M string :=
  branch ← match branch with
           | PyNone => current_branch fs
           | PyStr _ => mret branch
           end ;
  let branch_remote := "local_branch_" +:+ fmt_s branch +:+ "_remote" in
  match params !! branch_remote with
  | None => mret ""
  | Some remote =>
      if negb (truthy (PyStr remote)) then mret ""
      else
        let branch_merge := "local_branch_" +:+ fmt_s branch +:+ "_merge" in
        match params !! branch_merge with
        | None => mret ""
        | Some ref =>
            if startswith ref refs_heads_prefix
            then mret (remote +:+ "/" +:+
                       str_drop (String.length refs_heads_prefix) ref)
            else mret ""
        end
  end.

(** The argument list [diff_helper] builds, lines 172-188. *)
Definition diff_argv (commit branch ref endref : pyval)
    (filename : filename_arg) : list string :=
  let '(ref, endref) :=
    if truthy commit then (PyStr (fmt_s commit +:+ "^"), commit)
    else (ref, endref) in
  let argv :=
    if truthy ref && truthy endref then [fmt_s ref +:+ ".." +:+ fmt_s endref]
    else if truthy ref then split_ws (strip (fmt_s ref))
    else if truthy branch then [fmt_s branch]
    else [] in
  if filename_truthy filename then
    argv ++ ["--"] ++
    match filename with
    | FileList l => l
    | OneFile f => [f]
    | NoFile => []
    end
  else argv.

(** One turn of the line loop of [diff_helper], lines 217-225. *)
Definition diff_line (deleted with_diff_header suppress_header : bool)
    (acc : diff_acc) (line : string) : diff_acc :=
  let start :=
    acc_start acc ||
    (str_eqb "@@" (str_take 2 line) && contains "@@" (str_drop 2 line)) in
  if start || (deleted && contains del_tag line) then
    DiffAcc start (acc_headers acc)
            (acc_output acc +:+ core_encode line +:+ NL)
  else if with_diff_header then
    DiffAcc start (acc_headers acc ++ [core_encode line]) (acc_output acc)
  else if negb suppress_header then
    DiffAcc start (acc_headers acc)
            (acc_output acc +:+ core_encode line +:+ NL)
  else DiffAcc start (acc_headers acc) (acc_output acc).

(** [diff_helper(...)], lines 162-233. *)
Definition diff_helper (commit branch ref endref : pyval)
    (filename : filename_arg)
    (cached with_diff_header suppress_header reverse : bool) : diff_result :=
  let argv := diff_argv commit branch ref endref filename in
  let deleted := cached && negb (path_exists filename) in
  let diffoutput := git_diff reverse cached diff_context argv in
  if startswith diffoutput "fatal:" then
    if with_diff_header then HeaderAndText "" "" else Text ""
  else
    let diff := split_on LF diffoutput in
    let acc :=
      foldl (diff_line deleted with_diff_header suppress_header)
            (DiffAcc false [] "") (core_decode <$> diff) in
    let result := core_decode (acc_output acc) in
    if with_diff_header then HeaderAndText (join NL (acc_headers acc)) result
    else Text result.

(** [commit_diff(sha1)], lines 150-159.  [diff_helper] is called without
    [with_diff_header], so it hands back a text. *)
Definition commit_diff (sha1 : string) : outcome string :=
  let commit := git_show sha1 in
  match index_char LF commit with
  | None => Raise ValueError
  | Some first_newline =>
      if startswith (str_drop (first_newline + 1) commit) "Merge:" then
        match diff_helper (PyStr sha1) PyNone PyNone PyNone NoFile
                          false false false false with
        | Text d =>
            Ok (core_decode commit +:+ NL +:+ NL +:+ core_decode d)
        | HeaderAndText _ _ => Raise TypeError
        end
      else Ok (core_decode commit)
  end.

(** [export_patchset(start, end, output, **kwargs)], lines 283-288. *)
Definition export_patchset (start end_ output : string)
    (kwargs : format_patch_kwargs) : Z * string :=
  git_format_patch output (start +:+ "^.." +:+ end_) kwargs.

(** One turn of the grouping loop, lines 255-266. *)
Definition group_step (revs : list string) (g : grouping) (rev : string)
    : outcome grouping :=
  match list_index rev (drop (cur_master_idx g) revs) with
  | None => Raise ValueError
  | Some i =>
      let master_idx := i + cur_master_idx g in
      if bool_decide (master_idx = cur_master_idx g + 1) then
        match patches_to_export g !! patchset_idx g with
        | None => Raise IndexError
        | Some patchset =>
            Ok (Grouping (cur_master_idx g + 1)
                  (<[patchset_idx g := patchset ++ [rev]]> (patches_to_export g))
                  (patchset_idx g))
        end
      else
        Ok (Grouping master_idx (patches_to_export g ++ [[rev]])
              (patchset_idx g + 1))
  end.

Fixpoint group_loop (revs : list string) (g : grouping) (rest : list string)
    : outcome grouping :=
  match rest with
  | [] => Ok g
  | rev :: rest' => g' ← group_step revs g rev ; group_loop revs g' rest'
  end.

(** The grouping phase of [format_patchsets], lines 246-266: the value of
    [patches_to_export] when the first loop ends. *)
Definition group_patchsets (to_export revs : list string)
    : outcome (list (list string)) :=
  match to_export with
  | [] => Raise IndexError
  | cur_rev :: rest =>
      match list_index cur_rev revs with
      | None => Raise ValueError
      | Some idx =>
          g ← group_loop revs (Grouping idx [[cur_rev]] 0) rest ;
          mret (patches_to_export g)
      end
  end.

(** One turn of the export loop, lines 270-279, on [(status, outlines)]. *)
Definition export_step (acc : Z * list string) (patchset : list string)
    : outcome (Z * list string) :=
  let '(status, outlines) := acc in
  match head patchset, last patchset with
  | Some first, Some final =>
      let '(newstatus, out) :=
        export_patchset first final "patches"
          (Kwargs (bool_decide (1 < List.length patchset)) true true) in
      let outlines := outlines ++ [out] in
      Ok (if bool_decide (status = 0%Z) then (status + newstatus)%Z else status,
          outlines)
  | _, _ => Raise IndexError
  end.

Fixpoint export_loop (acc : Z * list string) (patchsets : list (list string))
    : outcome (Z * list string) :=
  match patchsets with
  | [] => Ok acc
  | patchset :: rest => acc' ← export_step acc patchset ; export_loop acc' rest
  end.

(** [format_patchsets(to_export, revs, output)], lines 236-280.  The
    [output] argument is not used: every run goes to ['patches']. *)
Definition format_patchsets (to_export revs : list string) (output : string)
    : outcome (Z * string) :=
  patchsets ← group_patchsets to_export revs ;
  '(status, outlines) ← export_loop (0%Z, []) patchsets ;
  mret (status, join NL outlines).

(** [default_remote()], lines 13-18. *)
Definition default_remote (fs : filesystem) : M string :=
  branch ← current_branch fs ;
  let branchconfig := "branch." +:+ fmt_s branch +:+ ".remote" in
  mret (local_config branchconfig "origin").

(** [corresponding_remote_ref()], lines 21-34. *)
Definition corresponding_remote_ref (fs : filesystem) : M string :=
  remote ← default_remote fs ;
  branch ← current_branch fs ;
  let best_match := remote +:+ "/" +:+ fmt_s branch in
  let remote_branches := branch_list true in
  if bool_decide (remote_branches = []) then mret remote
  else
    match first_equal best_match remote_branches with
    | Some rb => mret rb
    | None =>
        match remote_branches with
        | rb0 :: _ => mret rb0
        | [] => mret remote
        end
    end.

(** [diff_filenames(arg)], lines 37-40. *)
Definition diff_filenames (arg : string) : list string :=
  let diff_zstr := rstrip_char NUL (git_diff_name_only arg) in
  core_decode <$> filter (λ f, f ≠ EmptyString) (split_on NUL diff_zstr).

(** [all_files()], lines 43-47. *)
Definition all_files : list string :=
  core_decode <$>
    filter (λ f, f ≠ EmptyString)
           (split_on NUL (strip_char NUL (git_ls_files false))).

(** [untracked_files()], lines 135-140. *)
Definition untracked_files : list string :=
  let ls_files := git_ls_files true in
  core_decode <$> filter (λ f, f ≠ EmptyString) (split_on NUL ls_files).

(** [tag_list()], lines 143-147. *)
Definition tag_list : list string :=
  let tags := for_each_ref_basename "refs/tags/" in
  reverse tags.

End Gitcmds.

(** Concrete collaborators and inputs on which the statements are exercised. *)

(** A repository on branch [master]. *)
Definition symbolic_master : filesystem :=
  Filesystem "/repo/.git/HEAD" (Some 1700000000%Z) false
    "/repo/.git/refs/heads" true ("ref: refs/heads/master" +:+ NL).

(** A detached HEAD: the ref-pointer holds a bare commit id. *)
Definition detached_head : filesystem :=
  Filesystem "/repo/.git/HEAD" (Some 1700000000%Z) false
    "/repo/.git/refs/heads" true
    ("4b825dc642cb6eb9a060e54bf8d69288fbee4904" +:+ NL).

(** The same HEAD, later rewritten in place with its timestamp kept. *)
Definition symbolic_topic : filesystem :=
  Filesystem "/repo/.git/HEAD" (Some 1700000000%Z) false
    "/repo/.git/refs/heads" true ("ref: refs/heads/topic" +:+ NL).

(** A HEAD that [os.stat] no longer finds but [os.path.isfile] still saw. *)
Definition head_vanished : filesystem :=
  Filesystem "/repo/.git/HEAD" None false "/repo/.git/refs/heads" true "".

(** No [branch.<name>.remote] is set. *)
Definition no_local_config (_ default : string) : string := default.

Definition remote_refs (_ : string) : string :=
  "refs/remotes/origin/HEAD" +:+ NL +:+
  "refs/remotes/origin/master" +:+ NL +:+
  "refs/remotes/HEAD" +:+ NL.

Definition tag_refs (_ : string) : string :=
  "refs/tags/v1.0" +:+ NL +:+ "refs/tags/v1.1" +:+ NL +:+
  "refs/tags/old/HEAD" +:+ NL.

Definition tracking_params : gmap string string :=
  <["local_branch_master_remote" := "origin"]>
  (<["local_branch_master_merge" := "refs/heads/master"]> ∅).

Definition fatal_diff (_ _ : bool) (_ : Z) (_ : list string) : string :=
  "fatal: bad revision 'HEAD'" +:+ NL.

Definition merge_show (_ : string) : string :=
  "commit 1a2b3c" +:+ NL +:+ "Merge: 4d5e6f 7a8b9c" +:+ NL +:+
  "Author: A U Thor" +:+ NL.

Definition plain_diff (_ _ : bool) (_ : Z) (argv : list string) : string :=
  "diff --git a/x b/x" +:+ NL +:+ "@@ -1 +1 @@" +:+ NL +:+ "-a" +:+ NL +:+ "+b".

(** A staged deletion, as [git diff --cached] prints it. *)
Definition deletion_diff (_ _ : bool) (_ : Z) (_ : list string) : string :=
  "diff --git a/x b/x" +:+ NL +:+ "deleted file mode 100644" +:+ NL +:+
  "index e69de29..0000000".

Definition five_revs : list string := ["r1"; "r2"; "r3"; "r4"; "r5"].

(** An exporter whose run starting at [r4] fails with status 3. *)
Definition sample_format_patch (output range : string)
    (kwargs : format_patch_kwargs) : Z * string :=
  (if startswith range "r4" then 3%Z else 0%Z, "exported " +:+ range).

(** ** Specification-level notions *)

(** The HEAD kinds that name a branch, as [current_branch()] tests them. *)
Definition link_into_refs_heads (fs : filesystem) : bool :=
  fs_islink fs &&
  startswith (replace_char BACKSLASH SLASH (fs_head fs))
             (fs_refs_heads fs +:+ "/").

Definition symbolic_ref_file (fs : filesystem) : bool :=
  negb (fs_islink fs) && fs_isfile fs &&
  startswith (strip (fs_slurp fs)) ref_prefix.

(** The cache does not answer for [fs]: [os.stat] fails or the cached
    modification time differs. *)
Definition cache_miss (fs : filesystem) (c : cache) : Prop :=
  ∀ m, fs_stat fs = Some m → st_mtime c ≠ m.

(** [os.path.isfile] is a test on [os.stat]: it cannot hold where
    [os.stat] fails. *)
Definition stat_consistent (fs : filesystem) : Prop :=
  fs_isfile fs = true → is_Some (fs_stat fs).

(** Only the content of HEAD differs between [fs1] and [fs2]: same path,
    same kind, same [refs/heads] directory. *)
Definition same_file (fs1 fs2 : filesystem) : Prop :=
  fs_head fs2 = fs_head fs1 ∧
  fs_islink fs2 = fs_islink fs1 ∧
  fs_refs_heads fs2 = fs_refs_heads fs1 ∧
  fs_isfile fs2 = fs_isfile fs1.

(** The cache [s] holds, in each of its two fields, what [old] or what
    [new] holds in that field. *)
Definition fieldwise_old_or_new (old new s : cache) : Prop :=
  (st_mtime s = st_mtime old ∨ st_mtime s = st_mtime new) ∧
  (value s = value old ∨ value s = value new).

(** The second line of a text, if it has one. *)
Definition second_line (s : string) : option string := split_on LF s !! 1.

(** The first nonzero entry of a list of statuses, else zero. *)
Definition first_nonzero (l : list Z) : Z :=
  from_option id 0%Z (head (filter (λ z, z ≠ 0%Z) l)).

(** What exporting one run gives: its status and its log. *)
Definition run_result
    (git_format_patch : string → string → format_patch_kwargs → Z * string)
    (run : list string) : Z * string :=
  export_patchset git_format_patch
    (default "" (head run)) (default "" (last run)) "patches"
    (Kwargs (bool_decide (1 < List.length run)) true true).

(** [x] is immediately followed by [y] in [revs]. *)
Definition adjacent (revs : list string) (x y : string) : Prop :=
  ∃ p, revs !! p = Some x ∧ revs !! (p + 1) = Some y.

(** [R] relates every two neighbours of [l]. *)
Fixpoint consecutive {A : Type} (R : A → A → Prop) (l : list A) : Prop :=
  match l with
  | a :: (b :: _) as t => R a b ∧ consecutive R t
  | _ => True
  end.

(** A run whose neighbours are neighbours in [revs]. *)
Definition contiguous (revs : list string) (run : list string) : Prop :=
  consecutive (adjacent revs) run.

(** No run could have been extended by the first element of the next. *)
Definition maximal (revs : list string) (runs : list (list string)) : Prop :=
  consecutive
    (λ r1 r2, ∀ x y, last r1 = Some x → head r2 = Some y → ¬ adjacent revs x y)
    runs.

(** The lookups the grouping loop makes succeed: each revision is found in
    the suffix of [revs] that starts at the index of the one before it. *)
Inductive found_from (revs : list string) : nat → list string → Prop :=
| found_nil cur : found_from revs cur []
| found_cons cur rev rest i :
    rev ∈ drop cur revs →
    list_index rev (drop cur revs) = Some i →
    found_from revs (i + cur) rest →
    found_from revs cur (rev :: rest).

Definition every_selected_found (revs to_export : list string) : Prop :=
  match to_export with
  | [] => False
  | first :: rest =>
      ∃ idx, list_index first revs = Some idx ∧ found_from revs idx rest
  end.

(** What the grouping loop keeps true of its state: [patchset_idx] is the
    index of the last run, and no run is empty. *)
Definition grouping_ok (g : grouping) : Prop :=
  patchset_idx g + 1 = List.length (patches_to_export g) ∧
  Forall (λ run, run ≠ []) (patches_to_export g).

(** The runs of [x :: rest] by the words of the specification: the run that
    starts with [x], and the runs after it. *)
Definition adjacentb (revs : list string) (x y : string) : bool :=
  match list_index x revs with
  | Some p => bool_decide (revs !! (p + 1) = Some y)
  | None => false
  end.

Fixpoint runs_from (revs : list string) (x : string) (rest : list string)
    : list string * list (list string) :=
  match rest with
  | [] => ([x], [])
  | y :: rest' =>
      let '(r, rs) := runs_from revs y rest' in
      if adjacentb revs x y then (x :: r, rs) else ([x], r :: rs)
  end.

(** [k] copies of the character [c]. *)
Fixpoint rep (c : ascii) (k : nat) : string :=
  match k with
  | O => EmptyString
  | S k' => String c (rep c k')
  end.

(** The names, each followed by a NUL: what [git ... -z] prints. *)
Fixpoint nul_terminated (names : list string) : string :=
  match names with
  | [] => EmptyString
  | n :: names' => n +:+ String NUL (nul_terminated names')
  end.

(** A file name as [git] prints one: not empty and without a NUL. *)
Definition file_name (n : string) : Prop :=
  n ≠ EmptyString ∧ index_char NUL n = None.

(** The lines, each followed by a line end. *)
Fixpoint with_line_ends (lines : list string) : string :=
  match lines with
  | [] => EmptyString
  | l :: lines' => l +:+ NL +:+ with_line_ends lines'
  end.

(** A hunk marker, as the line loop of [diff_helper] tests it. *)
Definition hunk_marker (line : string) : bool :=
  str_eqb "@@" (str_take 2 line) && contains "@@" (str_drop 2 line).

(** A line the loop of [diff_helper] writes to the body although no hunk
    has started: a deletion notice, when the file is gone. *)
Definition deletion_notice (deleted : bool) (line : string) : Prop :=
  deleted && contains del_tag line = true.

#[global] Instance deletion_notice_dec deleted line :
  Decision (deletion_notice deleted line).
Proof. unfold deletion_notice. apply _. Defined.

(** The first line of [post], if there is one, is a hunk marker. *)
Definition starts_at_hunk (post : list string) : Prop :=
  ∀ h, head post = Some h → hunk_marker h = true.

(** Every character of [s] is blank. *)
Fixpoint all_space (s : string) : bool :=
  match s with
  | EmptyString => true
  | String c s' => is_space c && all_space s'
  end.

(** The last character of [s], if any, is blank. *)
Fixpoint ends_with_space (s : string) : bool :=
  match s with
  | EmptyString => false
  | String c EmptyString => is_space c
  | String _ s' => ends_with_space s'
  end.

(** ** Properties of the string primitives *)

Lemma ascii_eqb_true a b : ascii_eqb a b = true ↔ a = b.
Proof. unfold ascii_eqb. apply bool_decide_eq_true. Qed.

Lemma str_eqb_true a b : str_eqb a b = true ↔ a = b.
Proof. unfold str_eqb. apply bool_decide_eq_true. Qed.

Lemma append_String a s t : String a s +:+ t = String a (s +:+ t).
Proof. reflexivity. Qed.

Lemma append_assoc s t u : (s +:+ t) +:+ u = s +:+ t +:+ u.
Proof.
  induction s as [|a s IH]; [done|]. rewrite !append_String. by rewrite IH.
Qed.

Lemma startswith_split s p :
  startswith s p = true → s = p +:+ str_drop (String.length p) s.
Proof.
  revert s. induction p as [|a p IH]; intros s H; [done|].
  destruct s as [|b s]; [done|]. simpl in *.
  apply andb_true_iff in H as [Hab Hs].
  apply ascii_eqb_true in Hab. subst b. rewrite append_String. f_equal. by apply IH.
Qed.

Lemma startswith_app p s : startswith (p +:+ s) p = true.
Proof.
  induction p as [|a p IH]; [done|]. rewrite append_String. simpl.
  apply andb_true_iff. split; [by apply ascii_eqb_true | done].
Qed.

(** The first field of [split_on] agrees with the text on every prefix that
    holds no separator. *)
Lemma startswith_first_field sep p s :
  index_char sep p = None →
  startswith (default "" (head (split_on sep s))) p = startswith s p.
Proof.
  revert s. induction p as [|a p IH]; intros s Hp.
  - by destruct (head _).
  - simpl in Hp. destruct (ascii_eqb a sep) eqn:Ha; [done|].
    destruct (index_char sep p) eqn:Hp'; [done|].
    destruct s as [|b s]; [done|]. simpl.
    destruct (ascii_eqb b sep) eqn:Hb.
    + simpl. apply ascii_eqb_true in Hb. subst b.
      destruct (ascii_eqb a sep) eqn:Ha'; [done|]. done.
    + specialize (IH s eq_refl).
      destruct (split_on sep s) as [|h t] eqn:Hs; simpl in *.
      * rewrite <- IH. by destruct p.
      * by rewrite IH.
Qed.

Lemma split_on_index sep s n :
  index_char sep s = Some n →
  split_on sep s = str_take n s :: split_on sep (str_drop (n + 1) s).
Proof.
  revert n. induction s as [|c s IH]; intros n H; [done|].
  simpl in H. simpl split_on. destruct (ascii_eqb c sep) eqn:Hc.
  - by inversion H.
  - destruct (index_char sep s) as [k|] eqn:Hk; [|done].
    inversion H; subst n. rewrite (IH k eq_refl). done.
Qed.

Lemma split_on_no_index sep s :
  index_char sep s = None → split_on sep s = [s].
Proof.
  induction s as [|c s IH]; intros H; [done|].
  simpl in *. destruct (ascii_eqb c sep); [done|].
  destruct (index_char sep s); [done|]. by rewrite IH.
Qed.

(** ** Branch listing *)

Lemma for_each_ref_basename_elem git_for_each_ref refs e :
  e ∈ for_each_ref_basename git_for_each_ref refs →
  ∃ line, line ∈ splitlines (git_for_each_ref refs) ∧
          endswith line "/HEAD" = false ∧
          e = str_drop (String.length refs) line.
Proof.
  unfold for_each_ref_basename. intros He.
  apply list_elem_of_fmap in He as (line & -> & Hline).
  apply list_elem_of_filter in Hline as [Hnot Hin].
  exists line. split_and!; [done| |done].
  destruct (endswith line "/HEAD"); [by destruct Hnot|done].
Qed.

(** C6: whatever refs under [refs/remotes/] the enumeration prints,
    [branch_list(remote=True)] holds no entry equal to ['HEAD']: the only
    line that would strip to it, [refs/remotes/HEAD], ends in [/HEAD] and
    is filtered out first. *)
Theorem branch_list_remote_excludes_HEAD (git_for_each_ref : string → string) :
  Forall (λ line, startswith line "refs/remotes/" = true)
         (splitlines (git_for_each_ref "refs/remotes/")) →
  "HEAD" ∉ branch_list git_for_each_ref true.
Proof.
  intros Hrefs Hin. unfold branch_list in Hin.
  apply for_each_ref_basename_elem in Hin as (line & Hline & Hend & Hdrop).
  rewrite Forall_forall in Hrefs. apply Hrefs in Hline.
  apply startswith_split in Hline. rewrite <- Hdrop in Hline.
  subst line. vm_compute in Hend. discriminate.
Qed.

Lemma branch_list_remote_excludes_HEAD_witness :
  Forall (λ line, startswith line "refs/remotes/" = true)
         (splitlines (remote_refs "refs/remotes/")) ∧
  "HEAD" ∉ branch_list remote_refs true.
Proof.
  split.
  - vm_compute. repeat constructor.
  - apply (branch_list_remote_excludes_HEAD remote_refs).
    vm_compute. repeat constructor.
Defined.

Example branch_list_remote_sample :
  branch_list remote_refs true = ["origin/master"].
Proof. vm_compute. reflexivity. Qed.

(** ** Tracking branch *)

(** C5: for a given branch, [tracked_branch] raises nothing and leaves the
    state alone; it returns [''] when the remote key or the merge key is
    absent, and a non-empty answer is [remote/suffix] for a merge value that
    starts with [refs/heads/], [suffix] being what follows that prefix. *)
Theorem tracked_branch_spec (params : gmap string string) (fs : filesystem)
    (b : string) (w : world) :
  let remote_key := "local_branch_" +:+ b +:+ "_remote" in
  let merge_key := "local_branch_" +:+ b +:+ "_merge" in
  ∃ r, tracked_branch params fs (PyStr b) w = (Ok r, w) ∧
       (params !! remote_key = None ∨ params !! merge_key = None → r = "") ∧
       (r ≠ "" →
        ∃ remote ref,
          params !! remote_key = Some remote ∧
          params !! merge_key = Some ref ∧
          startswith ref "refs/heads/" = true ∧
          r = remote +:+ "/" +:+ str_drop (String.length "refs/heads/") ref).
Proof.
  intros remote_key merge_key.
  unfold tracked_branch, mbind, M_bind, mret, M_ret. cbn beta iota.
  change (fmt_s (PyStr b)) with b. fold remote_key merge_key.
  destruct (params !! remote_key) as [remote|] eqn:Hr.
  - destruct (negb (truthy (PyStr remote))) eqn:Ht.
    { exists "". split_and!; [done|done|]. by intros []. }
    destruct (params !! merge_key) as [ref|] eqn:Hm.
    + destruct (startswith ref refs_heads_prefix) eqn:Hs.
      * exists (remote +:+ "/" +:+
                str_drop (String.length refs_heads_prefix) ref).
        split_and!; [reflexivity| |].
        -- by intros [|].
        -- intros _. by exists remote, ref.
      * exists "". split_and!; [done|done|]. by intros [].
    + exists "". split_and!; [done|done|]. by intros [].
  - exists "". split_and!; [done|done|]. by intros [].
Qed.

Example tracked_branch_master :
  tracked_branch tracking_params symbolic_master (PyStr "master")
                 (World initial_cache []) =
  (Ok "origin/master", World initial_cache []).
Proof. vm_compute. reflexivity. Qed.

Example tracked_branch_untracked :
  tracked_branch ∅ symbolic_master (PyStr "topic") (World initial_cache []) =
  (Ok "", World initial_cache []).
Proof. vm_compute. reflexivity. Qed.

(** ** Diff engine *)

Section DiffEngine.

Variable diff_context : Z.
Variable git_show : string → string.
Variable git_diff : bool → bool → Z → list string → string.
Variable core_decode core_encode : string → string.
Variable path_exists : filename_arg → bool.

(** Without [with_diff_header] the answer of [diff_helper] is a text. *)
Lemma diff_helper_text commit branch ref endref filename cached
    suppress_header reverse :
  ∃ d, diff_helper diff_context git_diff core_decode core_encode path_exists
         commit branch ref endref filename cached false suppress_header
         reverse = Text d.
Proof.
  unfold diff_helper.
  destruct (startswith _ "fatal:"); eexists; reflexivity.
Qed.

(** C2: when the raw output of [git diff] begins with [fatal:],
    [diff_helper] returns the empty string, or the pair of empty strings when
    the header is asked for separately; nothing of the output is handed on. *)
Theorem diff_helper_fatal commit branch ref endref filename cached
    with_diff_header suppress_header reverse :
  startswith
    (git_diff reverse cached diff_context
       (diff_argv commit branch ref endref filename)) "fatal:" = true →
  diff_helper diff_context git_diff core_decode core_encode path_exists
    commit branch ref endref filename cached with_diff_header suppress_header
    reverse
  = if with_diff_header then HeaderAndText "" "" else Text "".
Proof. intros Hfatal. unfold diff_helper. by rewrite Hfatal. Qed.

(** The test of [commit_diff] on the text after the first line end is a test
    on the second line. *)
Lemma second_line_startswith s line2 p :
  index_char LF p = None →
  second_line s = Some line2 →
  ∃ n, index_char LF s = Some n ∧
       startswith (str_drop (n + 1) s) p = startswith line2 p.
Proof.
  intros Hp Hline. unfold second_line in Hline.
  destruct (index_char LF s) as [n|] eqn:Hn.
  - exists n. split; [done|].
    rewrite (split_on_index _ _ _ Hn) in Hline. simpl in Hline.
    rewrite <- (startswith_first_field LF p _ Hp).
    rewrite <- head_lookup in Hline. by rewrite Hline.
  - by rewrite (split_on_no_index _ _ Hn) in Hline.
Qed.

(** C7: for a commit whose [git show] output has a second line that starts
    with [Merge:], [commit_diff] returns the decoded output, a blank-line
    separator and the decoded text of [diff_helper] for that commit, not
    cached and with the header kept; when the second line starts otherwise,
    it returns the decoded output alone. *)
Theorem commit_diff_spec sha1 line2 :
  second_line (git_show sha1) = Some line2 →
  ∃ d,
    diff_helper diff_context git_diff core_decode core_encode path_exists
      (PyStr sha1) PyNone PyNone PyNone NoFile false false false false
    = Text d ∧
    commit_diff diff_context git_show git_diff core_decode core_encode
      path_exists sha1
    = Ok (if startswith line2 "Merge:"
          then core_decode (git_show sha1) +:+ NL +:+ NL +:+ core_decode d
          else core_decode (git_show sha1)).
Proof.
  intros Hline.
  destruct (diff_helper_text (PyStr sha1) PyNone PyNone PyNone NoFile false
              false false) as [d Hd].
  exists d. split; [done|].
  destruct (second_line_startswith _ _ "Merge:" eq_refl Hline)
    as (n & Hn & Hstart).
  unfold commit_diff. rewrite Hn, Hstart, Hd. by destruct (startswith line2 _).
Qed.

End DiffEngine.

Lemma diff_helper_fatal_witness :
  diff_helper 3 fatal_diff id id (λ _, true)
    PyNone PyNone PyNone PyNone NoFile true false true false = Text "" ∧
  diff_helper 3 fatal_diff id id (λ _, true)
    PyNone PyNone PyNone PyNone NoFile true true true false
  = HeaderAndText "" "".
Proof.
  split.
  - apply (diff_helper_fatal 3 fatal_diff id id (λ _, true)
             PyNone PyNone PyNone PyNone NoFile true false true false).
    vm_compute. reflexivity.
  - apply (diff_helper_fatal 3 fatal_diff id id (λ _, true)
             PyNone PyNone PyNone PyNone NoFile true true true false).
    vm_compute. reflexivity.
Defined.

Lemma commit_diff_spec_witness :
  second_line (merge_show "1a2b3c") = Some "Merge: 4d5e6f 7a8b9c" ∧
  ∃ d,
    diff_helper 3 plain_diff id id (λ _, true)
      (PyStr "1a2b3c") PyNone PyNone PyNone NoFile false false false false
    = Text d ∧
    commit_diff 3 merge_show plain_diff id id (λ _, true) "1a2b3c"
    = Ok (merge_show "1a2b3c" +:+ NL +:+ NL +:+ d).
Proof.
  split; [vm_compute; reflexivity|].
  apply (commit_diff_spec 3 merge_show plain_diff id id (λ _, true)
           "1a2b3c" "Merge: 4d5e6f 7a8b9c").
  vm_compute. reflexivity.
Defined.

Example commit_diff_merge_sample :
  commit_diff 3 merge_show plain_diff id id (λ _, true) "1a2b3c"
  = Ok (merge_show "1a2b3c" +:+ NL +:+ NL +:+
        "diff --git a/x b/x" +:+ NL +:+ "@@ -1 +1 @@" +:+ NL +:+
        "-a" +:+ NL +:+ "+b" +:+ NL).
Proof. vm_compute. reflexivity. Qed.

Example diff_argv_commit :
  diff_argv (PyStr "1a2b3c") PyNone PyNone PyNone NoFile = ["1a2b3c^..1a2b3c"].
Proof. vm_compute. reflexivity. Qed.

(** ** Current branch *)

Ltac run_query :=
  unfold run, current_branch, mbind, M_bind, mret, M_ret, emit, read_cache,
    set_value, set_st_mtime, local_st, raise;
  cbn [branch_cache fs_log st_mtime value fst snd].

Ltac no_slurp :=
  cbn; repeat (apply not_elem_of_cons; split; [discriminate|]);
  apply not_elem_of_nil.

Ltac split_tests :=
  repeat match goal with
         | |- context [bool_decide ?P] => destruct (bool_decide P) eqn:?
         | |- context [fs_islink ?fs] => destruct (fs_islink fs) eqn:?
         | |- context [startswith ?s ?p] => destruct (startswith s p) eqn:?
         | |- context [fs_isfile ?fs] => destruct (fs_isfile fs) eqn:?
         end.

Lemma cache_miss_test fs c :
  cache_miss fs c →
  match fs_stat fs with
  | Some m => bool_decide (st_mtime c = m)
  | None => false
  end = false.
Proof.
  intros Hmiss. destruct (fs_stat fs) as [m|] eqn:Hst; [|done].
  apply bool_decide_eq_false. by apply Hmiss.
Qed.

(** C1, as the code has it: when the cache does not answer, a HEAD that is
    neither a symbolic link into [refs/heads] nor a file holding
    [ref: refs/heads/...] gives [''] if it is a symbolic link or no regular
    file at all, and then leaves the cache alone; if it is a regular file
    it gives its own stripped content (a detached HEAD gives the commit
    id) and stores that content in the cache under the modification time
    [os.stat] gave. *)
Theorem current_branch_without_symbolic_ref (fs : filesystem) (c : cache) :
  cache_miss fs c →
  stat_consistent fs →
  link_into_refs_heads fs = false →
  symbolic_ref_file fs = false →
  let answer := if fs_islink fs then ""
                else if fs_isfile fs then strip (fs_slurp fs)
                else "" in
  (run (current_branch fs) c).1 = Ok (PyStr answer) ∧
  if negb (fs_islink fs) && fs_isfile fs
  then ∃ m, fs_stat fs = Some m ∧
            branch_cache (run (current_branch fs) c).2 =
            Cache m (PyStr answer)
  else branch_cache (run (current_branch fs) c).2 = c.
Proof.
  intros Hmiss Hstat Hlink Hfile. cbn zeta.
  unfold link_into_refs_heads in Hlink. unfold symbolic_ref_file in Hfile.
  run_query. rewrite (cache_miss_test _ _ Hmiss).
  destruct (fs_islink fs); cbn [andb negb] in *.
  - by rewrite Hlink.
  - destruct (fs_isfile fs) eqn:Hisfile; [|done].
    cbn [andb] in Hfile. rewrite Hfile.
    destruct (Hstat Hisfile) as [m Hm]. rewrite Hm. cbn.
    split; [done|]. by exists m.
Qed.

Lemma current_branch_without_symbolic_ref_witness :
  (run (current_branch detached_head) initial_cache).1 =
    Ok (PyStr "4b825dc642cb6eb9a060e54bf8d69288fbee4904") ∧
  branch_cache (run (current_branch detached_head) initial_cache).2 =
    Cache 1700000000%Z (PyStr "4b825dc642cb6eb9a060e54bf8d69288fbee4904").
Proof.
  destruct (current_branch_without_symbolic_ref detached_head initial_cache)
    as [Hanswer (m & Hm & Hcache)].
  - intros m [= <-]. done.
  - intros _. by eexists.
  - vm_compute. reflexivity.
  - vm_compute. reflexivity.
  - injection Hm as <-. split; [exact Hanswer | exact Hcache].
Defined.

(** C1 as stated fails on a detached HEAD: the file is neither kind of
    branch pointer, and the answer is the commit id, not ['']; the commit
    id is what the cache holds afterwards. *)
Lemma current_branch_detached_counterexample :
  link_into_refs_heads detached_head = false ∧
  symbolic_ref_file detached_head = false ∧
  (run (current_branch detached_head) initial_cache).1 =
    Ok (PyStr "4b825dc642cb6eb9a060e54bf8d69288fbee4904") ∧
  (run (current_branch detached_head) initial_cache).1 ≠ Ok (PyStr "") ∧
  branch_cache (run (current_branch detached_head) initial_cache).2 =
    Cache 1700000000%Z (PyStr "4b825dc642cb6eb9a060e54bf8d69288fbee4904").
Proof. vm_compute. split_and!; [done|done|done|discriminate|done]. Qed.

(** C4: of two calls that see the same HEAD with the same modification
    time, the second reads no content and returns what the first returned,
    whatever the content has become. *)
Theorem current_branch_cached (fs1 fs2 : filesystem) (c : cache) (m : Z) :
  fs_stat fs1 = Some m →
  fs_stat fs2 = Some m →
  same_file fs1 fs2 →
  ∃ v w1 w2,
    run (current_branch fs1) c = (Ok v, w1) ∧
    run (current_branch fs2) (branch_cache w1) = (Ok v, w2) ∧
    EvSlurp ∉ fs_log w2.
Proof.
  intros Hst1 Hst2 (Hhead & Hlink & Hrefs & Hfile).
  run_query. rewrite Hst1, Hst2, Hhead, Hlink, Hrefs, Hfile.
  destruct (bool_decide (st_mtime c = m)) eqn:Hhit.
  { do 3 eexists. split_and!; [done| |].
    - cbn. rewrite Hhit. done.
    - no_slurp. }
  destruct (fs_islink fs1).
  - destruct (startswith _ _) eqn:Hinto.
    + do 3 eexists. split_and!; [done| |].
      * cbn. rewrite bool_decide_eq_true_2; done.
      * no_slurp.
    + do 3 eexists. split_and!; [done| |].
      * cbn. rewrite Hhit. done.
      * no_slurp.
  - destruct (fs_isfile fs1).
    + do 3 eexists. split_and!; [done| |].
      * cbn. rewrite bool_decide_eq_true_2; done.
      * no_slurp.
    + do 3 eexists. split_and!; [done| |].
      * cbn. rewrite Hhit. done.
      * no_slurp.
Qed.

Lemma current_branch_cached_witness :
  same_file symbolic_master symbolic_topic ∧
  ∃ v w1 w2,
    run (current_branch symbolic_master) initial_cache = (Ok v, w1) ∧
    run (current_branch symbolic_topic) (branch_cache w1) = (Ok v, w2) ∧
    EvSlurp ∉ fs_log w2.
Proof.
  split; [by repeat split|].
  apply (current_branch_cached symbolic_master symbolic_topic initial_cache
           1700000000%Z); [done|done|by repeat split].
Defined.

(** The recorded call is the call: same outcome, same world. *)
Lemma current_branch_observed_erase (fs : filesystem) (o : observed) :
  ((current_branch_observed fs o).1, ob_world (current_branch_observed fs o).2)
  = current_branch fs (ob_world o).
Proof.
  unfold current_branch_observed, current_branch, quiet, store,
    mbind, M_bind, T_bind, mret, M_ret, T_ret, emit, read_cache,
    set_value, set_st_mtime, local_st, raise.
  destruct o as [w caches].
  cbn [ob_world ob_caches branch_cache fs_log st_mtime value fst snd].
  destruct (fs_stat fs) as [m|]; split_tests; reflexivity.
Qed.

(** C9, as the code has it: the replacement of the cached pair is two
    separate stores, one per field, with no lock.  A call makes at most
    two stores and ends with the new pair in the cache; every cache a
    reader on another thread can find holds in each field the old or the
    new content, so no single field is ever torn, but the pair as a whole
    is not replaced at once: reading a regular file stores the new time
    first, so the cache passes through the new time with the old value,
    and a link under [refs/heads] stores the value first, so it passes
    through the new value with the old time. *)
Theorem current_branch_stores_fieldwise (fs : filesystem) (c : cache) :
  let o := (observe (current_branch_observed fs) c).2 in
  let new := branch_cache (ob_world o) in
  ((observe (current_branch_observed fs) c).1, ob_world o) =
    run (current_branch fs) c ∧
  Forall (fieldwise_old_or_new c new) (ob_caches o) ∧
  List.length (ob_caches o) ≤ 2 ∧
  last (c :: ob_caches o) = Some new ∧
  (∀ m, fs_stat fs = Some m → st_mtime c ≠ m →
        fs_islink fs = false → fs_isfile fs = true →
        ∃ v, ob_caches o = [Cache m (value c); Cache m (PyStr v)]) ∧
  (∀ m, fs_stat fs = Some m → st_mtime c ≠ m →
        link_into_refs_heads fs = true →
        ∃ v, ob_caches o = [Cache (st_mtime c) (PyStr v); Cache m (PyStr v)]).
Proof.
  cbn zeta. split; [apply current_branch_observed_erase|].
  unfold observe, fieldwise_old_or_new, link_into_refs_heads,
    current_branch_observed, quiet, store,
    mbind, M_bind, T_bind, mret, M_ret, T_ret, emit, read_cache,
    set_value, set_st_mtime, local_st, raise.
  destruct c as [t old].
  cbn [ob_world ob_caches branch_cache fs_log st_mtime value fst snd].
  destruct (fs_stat fs) as [m|]; split_tests;
    unfold mret, M_ret, raise;
    cbn [ob_world ob_caches branch_cache fs_log st_mtime value fst snd app
         List.length last andb];
    (split_and!;
     [ repeat (apply List.Forall_cons; [cbn; auto|]); apply List.Forall_nil
     | lia | reflexivity
     | intros m' Hm' Hmiss Hl Hf; try discriminate
     | intros m' Hm' Hmiss Hl; try discriminate ]);
    try (injection Hm' as <-;
         match goal with H : bool_decide _ = true |- _ =>
           apply bool_decide_eq_true in H; contradiction end);
    try (injection Hm' as <-; by eexists).
Qed.

Lemma current_branch_stores_fieldwise_witness :
  fs_stat symbolic_topic = Some 1700000000%Z ∧
  ∃ v, ob_caches (observe (current_branch_observed symbolic_topic)
                          (Cache 5%Z (PyStr "master"))).2 =
       [Cache 1700000000%Z (PyStr "master"); Cache 1700000000%Z (PyStr v)].
Proof.
  split; [done|].
  apply (current_branch_stores_fieldwise symbolic_topic
           (Cache 5%Z (PyStr "master"))); done.
Defined.

(** C9 as stated fails: while a call replaces the pair (5, master) by
    (1700000000, topic), the cache holds the new time with the old value;
    that pair is neither the old one nor the new one, and a reader that
    calls [current_branch] at that moment gets a cache hit and the stale
    [master]. *)
Lemma current_branch_torn_counterexample :
  ob_caches (observe (current_branch_observed symbolic_topic)
                     (Cache 5%Z (PyStr "master"))).2 =
    [Cache 1700000000%Z (PyStr "master"); Cache 1700000000%Z (PyStr "topic")] ∧
  Cache 1700000000%Z (PyStr "master") ≠ Cache 5%Z (PyStr "master") ∧
  Cache 1700000000%Z (PyStr "master") ≠ Cache 1700000000%Z (PyStr "topic") ∧
  run (current_branch symbolic_topic) (Cache 1700000000%Z (PyStr "master")) =
    (Ok (PyStr "master"),
     World (Cache 1700000000%Z (PyStr "master")) [EvStat]).
Proof.
  split_and!; [vm_compute; reflexivity|discriminate|discriminate|
               vm_compute; reflexivity].
Qed.

Example current_branch_master :
  run (current_branch symbolic_master) initial_cache =
  (Ok (PyStr "master"),
   World (Cache 1700000000%Z (PyStr "master"))
         [EvStat; EvIslink; EvIsfile; EvSlurp]).
Proof. vm_compute. reflexivity. Qed.

Example current_branch_second_call :
  run (current_branch symbolic_topic) (Cache 1700000000%Z (PyStr "master")) =
  (Ok (PyStr "master"), World (Cache 1700000000%Z (PyStr "master")) [EvStat]).
Proof. vm_compute. reflexivity. Qed.

(** ** Patch-set exporter *)

Lemma list_index_lookup x l i :
  list_index x l = Some i → l !! i = Some x.
Proof.
  revert i. induction l as [|y l IH]; intros i H; [done|].
  simpl in H. destruct (str_eqb y x) eqn:Hy.
  - apply str_eqb_true in Hy. by inversion H; subst.
  - destruct (list_index x l) as [k|]; [|done].
    inversion H; subst. simpl. by apply IH.
Qed.

Lemma list_index_elem x l : x ∈ l ↔ is_Some (list_index x l).
Proof.
  induction l as [|y l IH]; simpl.
  - split; [by intros ?%elem_of_nil | by intros [? ?]].
  - destruct (str_eqb y x) eqn:Hy.
    + apply str_eqb_true in Hy. subst. split; [by eexists | left].
    + rewrite elem_of_cons, IH. split.
      * intros [->|[k Hk]]; [|rewrite Hk; by eexists].
        unfold str_eqb in Hy. by rewrite bool_decide_eq_true_2 in Hy.
      * intros [k Hk]. right.
        destruct (list_index x l); [by eexists | done].
Qed.

Lemma list_index_NoDup x l i :
  NoDup l → l !! i = Some x → list_index x l = Some i.
Proof.
  intros Hnd Hi.
  assert (is_Some (list_index x l)) as [j Hj].
  { apply list_index_elem. by eapply list_elem_of_lookup_2. }
  rewrite Hj. f_equal.
  eapply NoDup_lookup; [done| |done]. by apply list_index_lookup.
Qed.

Lemma group_step_found revs g rev i :
  grouping_ok g →
  list_index rev (drop (cur_master_idx g) revs) = Some i →
  ∃ g', group_step revs g rev = Ok g' ∧ grouping_ok g' ∧
        cur_master_idx g' = i + cur_master_idx g.
Proof.
  intros [Hidx Hne] Hi. unfold group_step. rewrite Hi.
  case_bool_decide as Hadj.
  - destruct (lookup_lt_is_Some_2 (patches_to_export g) (patchset_idx g))
      as [patchset Hp]; [lia|].
    rewrite Hp. eexists. split; [done|]. split; [|simpl; lia].
    split; simpl.
    + by rewrite length_insert.
    + apply Forall_insert; [done|]. by destruct patchset.
  - eexists. split; [done|]. split; [|done]. split; simpl.
    + rewrite length_app. simpl. lia.
    + apply Forall_app. split; [done|]. by constructor.
Qed.

Lemma group_step_missing revs g rev :
  list_index rev (drop (cur_master_idx g) revs) = None →
  group_step revs g rev = Raise ValueError.
Proof. intros Hi. unfold group_step. by rewrite Hi. Qed.

Lemma group_loop_found revs rest :
  ∀ g, grouping_ok g →
       found_from revs (cur_master_idx g) rest →
       ∃ g', group_loop revs g rest = Ok g' ∧ grouping_ok g'.
Proof.
  induction rest as [|rev rest IH]; intros g Hok Hfound.
  - by exists g.
  - inversion Hfound as [|? ? ? i _ Hi Hrest]; subst.
    destruct (group_step_found _ _ _ _ Hok Hi) as (g1 & Hstep & Hok1 & Hcur).
    simpl. rewrite Hstep. simpl. apply IH; [done|]. by rewrite Hcur.
Qed.

Lemma group_loop_returns revs rest :
  ∀ g g', grouping_ok g →
          group_loop revs g rest = Ok g' →
          found_from revs (cur_master_idx g) rest.
Proof.
  induction rest as [|rev rest IH]; intros g g' Hok Hloop.
  - constructor.
  - simpl in Hloop.
    destruct (list_index rev (drop (cur_master_idx g) revs)) as [i|] eqn:Hi.
    + destruct (group_step_found _ _ _ _ Hok Hi) as (g1 & Hstep & Hok1 & Hcur).
      rewrite Hstep in Hloop. simpl in Hloop.
      econstructor; [|done|].
      * apply list_index_elem. by eexists.
      * rewrite <- Hcur. by eapply IH.
    + by rewrite (group_step_missing _ _ _ Hi) in Hloop.
Qed.

Lemma initial_grouping_ok idx cur_rev : grouping_ok (Grouping idx [[cur_rev]] 0).
Proof. split; [done|]. by repeat constructor. Qed.

Lemma group_patchsets_found to_export revs :
  every_selected_found revs to_export →
  ∃ runs, group_patchsets to_export revs = Ok runs ∧
          Forall (λ run, run ≠ []) runs.
Proof.
  destruct to_export as [|cur_rev rest]; [done|].
  intros (idx & Hidx & Hfound). simpl. rewrite Hidx.
  destruct (group_loop_found revs rest (Grouping idx [[cur_rev]] 0))
    as (g & Hloop & Hok); [apply initial_grouping_ok|done|].
  rewrite Hloop. exists (patches_to_export g). split; [done|]. apply Hok.
Qed.

Lemma group_patchsets_returns to_export revs runs :
  group_patchsets to_export revs = Ok runs →
  every_selected_found revs to_export.
Proof.
  destruct to_export as [|cur_rev rest]; [done|]. simpl.
  destruct (list_index cur_rev revs) as [idx|] eqn:Hidx; [|done].
  destruct (group_loop _ _ _) as [g|] eqn:Hloop; [|done].
  intros _. exists idx. split; [done|].
  by apply (group_loop_returns revs rest _ g (initial_grouping_ok idx cur_rev)).
Qed.

Lemma group_patchsets_nonempty to_export revs runs :
  group_patchsets to_export revs = Ok runs → Forall (λ run, run ≠ []) runs.
Proof.
  intros Hruns.
  destruct (group_patchsets_found _ _ (group_patchsets_returns _ _ _ Hruns))
    as (runs' & Hruns' & Hne).
  rewrite Hruns in Hruns'. by inversion Hruns'; subst.
Qed.

Section PatchExport.

Variable git_format_patch : string → string → format_patch_kwargs → Z * string.

Lemma export_step_nonempty status outlines run :
  run ≠ [] →
  export_step git_format_patch (status, outlines) run =
  Ok (if bool_decide (status = 0%Z)
      then (run_result git_format_patch run).1 else status,
      outlines ++ [(run_result git_format_patch run).2]).
Proof.
  intros Hne. unfold export_step, run_result.
  destruct (head run) as [first|] eqn:Hhead; [|by destruct run].
  destruct (last run) as [final|] eqn:Hlast;
    [|by apply last_None in Hlast].
  simpl. destruct (export_patchset _ _ _ _ _) as [newstatus out]. simpl.
  by case_bool_decide; subst.
Qed.

Lemma first_nonzero_cons z l :
  first_nonzero (z :: l) = if bool_decide (z = 0%Z) then first_nonzero l else z.
Proof.
  unfold first_nonzero. rewrite filter_cons.
  case_bool_decide as Hz.
  - by rewrite decide_False by (by intros []).
  - by rewrite decide_True.
Qed.

Lemma export_loop_nonempty runs :
  ∀ status outlines,
    Forall (λ run, run ≠ []) runs →
    export_loop git_format_patch (status, outlines) runs =
    Ok (if bool_decide (status = 0%Z)
        then first_nonzero ((run_result git_format_patch <$> runs).*1) else status,
        outlines ++ (run_result git_format_patch <$> runs).*2).
Proof.
  induction runs as [|run runs IH]; intros status outlines Hne.
  - simpl. rewrite app_nil_r. by case_bool_decide; subst.
  - apply Forall_cons in Hne as [Hrun Hruns].
    cbn [export_loop]. rewrite (export_step_nonempty _ _ _ Hrun).
    unfold mbind, outcome_bind. rewrite (IH _ _ Hruns).
    rewrite !fmap_cons, first_nonzero_cons.
    rewrite <- app_assoc. simpl. f_equal. f_equal.
    repeat case_bool_decide; congruence.
Qed.

(** C8: whatever statuses the exports of the runs give, the status
    [format_patchsets] returns is the first nonzero one, or zero when there
    is none, and the text is the logs of the runs joined by line ends. *)
Theorem format_patchsets_aggregate (to_export revs : list string)
    (output : string) (runs : list (list string)) :
  group_patchsets to_export revs = Ok runs →
  format_patchsets git_format_patch to_export revs output =
  Ok (first_nonzero ((run_result git_format_patch <$> runs).*1),
      join NL ((run_result git_format_patch <$> runs).*2)).
Proof.
  intros Hruns. unfold format_patchsets. rewrite Hruns. simpl.
  rewrite export_loop_nonempty by by eapply group_patchsets_nonempty.
  done.
Qed.

(** C10: on the empty selection [format_patchsets] raises IndexError, and
    it returns a result exactly when the selection is non-empty and every
    lookup of the grouping loop finds its revision. *)
Theorem format_patchsets_defined (to_export revs : list string)
    (output : string) :
  format_patchsets git_format_patch [] revs output = Raise IndexError ∧
  ((∃ r, format_patchsets git_format_patch to_export revs output = Ok r) ↔
   to_export ≠ [] ∧ every_selected_found revs to_export).
Proof.
  split; [done|]. split.
  - intros [r Hr]. unfold format_patchsets in Hr.
    destruct (group_patchsets to_export revs) as [runs|] eqn:Hruns; [|done].
    split; [by destruct to_export|]. by eapply group_patchsets_returns.
  - intros [_ Hfound].
    destruct (group_patchsets_found _ _ Hfound) as (runs & Hruns & Hne).
    unfold format_patchsets. rewrite Hruns. cbn [mbind outcome_bind].
    rewrite (export_loop_nonempty _ _ _ Hne). by eexists.
Qed.

End PatchExport.

Lemma format_patchsets_aggregate_witness :
  format_patchsets sample_format_patch ["r1"; "r2"; "r4"; "r5"] five_revs "out"
  = Ok (3%Z, "exported r1^..r2" +:+ NL +:+ "exported r4^..r5").
Proof.
  apply (format_patchsets_aggregate sample_format_patch
           ["r1"; "r2"; "r4"; "r5"] five_revs "out"
           [["r1"; "r2"]; ["r4"; "r5"]]).
  vm_compute. reflexivity.
Defined.

Example format_patchsets_missing_revision :
  format_patchsets sample_format_patch ["r1"; "r9"] five_revs "out"
  = Raise ValueError.
Proof. vm_compute. reflexivity. Qed.

Example format_patchsets_backwards :
  format_patchsets sample_format_patch ["r4"; "r1"] five_revs "out"
  = Raise ValueError.
Proof. vm_compute. reflexivity. Qed.

(** *** The grouping loop computes the maximal contiguous runs *)

Section Grouping.

Variable revs : list string.
Hypothesis revs_NoDup : NoDup revs.

Lemma adjacentb_spec x y : adjacentb revs x y = true ↔ adjacent revs x y.
Proof.
  unfold adjacentb, adjacent. split.
  - destruct (list_index x revs) as [p|] eqn:Hp; [|done].
    intros Hy%bool_decide_eq_true. exists p.
    split; [by apply list_index_lookup | done].
  - intros (p & Hx & Hy).
    rewrite (list_index_NoDup _ _ _ revs_NoDup Hx).
    by apply bool_decide_eq_true.
Qed.

Lemma adjacent_at cur x y :
  revs !! cur = Some x → adjacent revs x y ↔ revs !! (cur + 1) = Some y.
Proof.
  intros Hx. split.
  - intros (p & Hp & Hy).
    by rewrite (NoDup_lookup _ _ _ _ revs_NoDup Hx Hp).
  - intros Hy. by exists cur.
Qed.

Lemma list_index_drop cur j y :
  revs !! (cur + j) = Some y → list_index y (drop cur revs) = Some j.
Proof.
  intros Hy. apply list_index_NoDup.
  - eapply sublist_NoDup; [done | apply sublist_drop].
  - by rewrite lookup_drop.
Qed.

(** Where the next selected revision sits, for a selection that follows
    the order of [revs]. *)
Lemma sublist_next cur y rest :
  y :: rest `sublist_of` drop (S cur) revs →
  ∃ j, revs !! (S cur + j) = Some y ∧
       rest `sublist_of` drop (S (S cur + j)) revs.
Proof.
  intros (k1 & k2 & Hdrop & Hrest)%sublist_cons_l.
  exists (List.length k1). split.
  - rewrite <- lookup_drop, Hdrop. by apply list_lookup_middle.
  - replace (S (S cur + List.length k1))
      with (S cur + S (List.length k1)) by lia.
    rewrite <- drop_drop, Hdrop.
    change (y :: k2) with ([y] ++ k2). rewrite app_assoc.
    rewrite drop_app_length'; [done|]. rewrite length_app. simpl. lia.
Qed.

Lemma insert_last {A} (init : list A) (u v : A) :
  <[List.length init := v]> (init ++ [u]) = init ++ [v].
Proof.
  rewrite insert_app_r_alt by lia. by rewrite Nat.sub_diag.
Qed.

(** The loop, started in the middle of a run [pre ++ [x]], ends with the
    runs of the specification appended to what it had. *)
Lemma group_loop_runs rest :
  ∀ init pre x cur,
    revs !! cur = Some x →
    rest `sublist_of` drop (S cur) revs →
    ∃ g, group_loop revs
           (Grouping cur (init ++ [pre ++ [x]]) (List.length init)) rest = Ok g ∧
         patches_to_export g =
         init ++ (pre ++ (runs_from revs x rest).1) :: (runs_from revs x rest).2.
Proof.
  induction rest as [|y rest IH]; intros init pre x cur Hx Hsub.
  - eexists. split; [done|]. done.
  - destruct (sublist_next _ _ _ Hsub) as (j & Hy & Hrest).
    cbn [group_loop]. unfold group_step. cbn [cur_master_idx patches_to_export patchset_idx].
    rewrite (list_index_drop cur (S j) y) by (by rewrite <- Hy; f_equal; lia).
    cbn [runs_from]. destruct (runs_from revs y rest) as [r rs] eqn:Hruns.
    case_bool_decide as Hnext.
    + assert (j = 0) as -> by lia.
      assert (adjacentb revs x y = true) as ->.
      { apply adjacentb_spec, (adjacent_at cur); [done|].
        rewrite <- Hy. f_equal. lia. }
      rewrite list_lookup_middle by done. rewrite insert_last.
      cbn [mbind outcome_bind].
      destruct (IH init (pre ++ [x]) y (cur + 1)) as (g & Hloop & Hg).
      { rewrite <- Hy. f_equal. lia. }
      { by replace (S (cur + 1)) with (S (S cur + 0)) by lia. }
      exists g. split; [done|]. rewrite Hg, Hruns. cbn [fst snd].
      by rewrite <- app_assoc.
    + assert (adjacentb revs x y = false) as ->.
      { apply not_true_iff_false. rewrite adjacentb_spec, (adjacent_at cur) by done.
        intros Hy'. assert (cur + 1 = S cur + j); [|lia].
        by eapply NoDup_lookup. }
      cbn [mbind outcome_bind].
      destruct (IH (init ++ [pre ++ [x]]) [] y (S j + cur)) as (g & Hloop & Hg).
      { rewrite <- Hy. f_equal. lia. }
      { by replace (S (S j + cur)) with (S (S cur + j)) by lia. }
      exists g. split.
      * rewrite <- Hloop. do 2 f_equal. rewrite length_app. simpl. done.
      * rewrite Hg, Hruns. cbn [fst snd app]. by rewrite <- app_assoc.
Qed.

(** The runs of the specification partition the selection into non-empty
    contiguous runs, none of which the next one could extend. *)
Lemma runs_from_spec rest :
  ∀ x, let '(r, rs) := runs_from revs x rest in
       List.concat (r :: rs) = x :: rest ∧
       head r = Some x ∧
       Forall (λ run, run ≠ []) rs ∧
       Forall (contiguous revs) (r :: rs) ∧
       maximal revs (r :: rs).
Proof.
  induction rest as [|y rest IH]; intros x.
  - simpl. split_and!; try done. repeat constructor.
  - cbn [runs_from]. specialize (IH y).
    destruct (runs_from revs y rest) as [r rs].
    destruct IH as (Hcat & Hhead & Hne & Hcont & Hmax).
    apply Forall_cons in Hcont as [Hr Hrs].
    destruct r as [|y' r]; [done|]. injection Hhead as ->.
    destruct (adjacentb revs x y) eqn:Hadj.
    + apply adjacentb_spec in Hadj. split_and!; try done.
      * simpl in *. by rewrite Hcat.
      * constructor; [|done]. by split.
    + split_and!; try done.
      * simpl in *. by rewrite Hcat.
      * by constructor.
      * constructor; [done|]. by constructor.
      * split; [|done]. intros a b [= <-] [= <-].
        rewrite <- adjacentb_spec. by rewrite Hadj.
Qed.

Lemma group_patchsets_runs x rest :
  x :: rest `sublist_of` revs →
  group_patchsets (x :: rest) revs =
  Ok ((runs_from revs x rest).1 :: (runs_from revs x rest).2).
Proof.
  intros (k1 & k2 & Hrevs & Hrest)%sublist_cons_l.
  assert (revs !! List.length k1 = Some x) as Hx.
  { rewrite Hrevs. by apply list_lookup_middle. }
  cbn [group_patchsets]. rewrite (list_index_NoDup _ _ _ revs_NoDup Hx).
  destruct (group_loop_runs rest [] [] x (List.length k1)) as (g & Hloop & Hg).
  - done.
  - rewrite Hrevs. change (x :: k2) with ([x] ++ k2). rewrite app_assoc.
    rewrite drop_app_length'; [done|]. rewrite length_app. simpl. lia.
  - cbn [app List.length] in Hloop. rewrite Hloop.
    cbn [mbind outcome_bind mret outcome_ret]. by rewrite Hg.
Qed.

End Grouping.

(** C3: for a non-empty selection that follows the order of a duplicate-free
    revision list, the grouping returns runs that partition the selection in
    order, none empty; neighbours inside a run are neighbours in [revs], and
    the last revision of a run is never followed in [revs] by the first of
    the next run.  In particular, selecting [r1; r2; r4] out of
    [r1; r2; r3; r4; r5] gives the runs [r1; r2] and [r4]. *)
Theorem group_patchsets_maximal_runs :
  (∀ to_export revs : list string,
     to_export ≠ [] →
     NoDup revs →
     to_export `sublist_of` revs →
     ∃ runs, group_patchsets to_export revs = Ok runs ∧
             List.concat runs = to_export ∧
             Forall (λ run, run ≠ []) runs ∧
             Forall (contiguous revs) runs ∧
             maximal revs runs) ∧
  (∀ r1 r2 r3 r4 r5 : string,
     NoDup [r1; r2; r3; r4; r5] →
     group_patchsets [r1; r2; r4] [r1; r2; r3; r4; r5] =
     Ok [[r1; r2]; [r4]]).
Proof.
  split.
  - intros [|x rest] revs Hne Hnd Hsub; [done|].
    eexists. split; [by apply group_patchsets_runs|].
    pose proof (runs_from_spec revs Hnd rest x) as Hspec.
    destruct (runs_from revs x rest) as [r rs].
    destruct Hspec as (Hcat & Hhead & Hrs & Hcont & Hmax). cbn [fst snd].
    split_and!; try done. constructor; [by destruct r | done].
  - intros r1 r2 r3 r4 r5 Hnd.
    rewrite group_patchsets_runs; [|done|].
    + cbn [runs_from].
      assert (adjacentb [r1; r2; r3; r4; r5] r2 r4 = false) as ->.
      { apply not_true_iff_false.
        rewrite (adjacentb_spec _ Hnd), (adjacent_at _ Hnd 1) by done.
        intros [= <-]. by pose proof (NoDup_lookup _ 2 3 r3 Hnd eq_refl eq_refl). }
      assert (adjacentb [r1; r2; r3; r4; r5] r1 r2 = true) as ->; [|done].
      by apply (adjacentb_spec _ Hnd), (adjacent_at _ Hnd 0).
    + do 2 apply sublist_skip. apply sublist_cons.
      apply sublist_skip, sublist_nil_l.
Qed.

Lemma group_patchsets_maximal_runs_witness :
  ["r1"; "r2"; "r4"] ≠ [] ∧
  NoDup five_revs ∧
  ["r1"; "r2"; "r4"] `sublist_of` five_revs ∧
  (∃ runs, group_patchsets ["r1"; "r2"; "r4"] five_revs = Ok runs ∧
           List.concat runs = ["r1"; "r2"; "r4"] ∧
           Forall (λ run, run ≠ []) runs ∧
           Forall (contiguous five_revs) runs ∧
           maximal five_revs runs) ∧
  group_patchsets ["r1"; "r2"; "r4"] five_revs = Ok [["r1"; "r2"]; ["r4"]].
Proof.
  assert (NoDup five_revs) as Hnd.
  { apply (bool_decide_unpack (NoDup five_revs)). vm_compute. exact I. }
  assert (["r1"; "r2"; "r4"] `sublist_of` five_revs) as Hsub.
  { unfold five_revs. do 2 apply sublist_skip. apply sublist_cons.
    apply sublist_skip, sublist_nil_l. }
  split_and!; [done|done|done| |].
  - by apply (proj1 group_patchsets_maximal_runs).
  - by apply (proj2 group_patchsets_maximal_runs).
Defined.

Example group_patchsets_sample :
  group_patchsets ["r1"; "r2"; "r4"] five_revs = Ok [["r1"; "r2"]; ["r4"]].
Proof. vm_compute. reflexivity. Qed.

Example group_patchsets_repeated_revision :
  group_patchsets ["a"; "a"] ["a"; "a"] = Ok [["a"]; ["a"]].
Proof. vm_compute. reflexivity. Qed.

(** * Further properties of the module *)

(** ** NUL-separated file lists *)

Lemma append_empty_r s : s +:+ "" = s.
Proof. induction s as [|a s IH]; [done|]. by rewrite append_String, IH. Qed.

Lemma split_on_nonempty sep s : split_on sep s ≠ [].
Proof.
  destruct s as [|c s]; [done|]. simpl.
  destruct (ascii_eqb c sep); [done|]. by destruct (split_on sep s).
Qed.

(** Splitting around a separator splits both sides. *)
Lemma split_on_app_sep c s t :
  split_on c (s +:+ String c t) = split_on c s ++ split_on c t.
Proof.
  induction s as [|a s IH].
  - change ("" +:+ String c t) with (String c t). simpl.
    unfold ascii_eqb. by rewrite bool_decide_eq_true_2.
  - rewrite append_String. simpl. destruct (ascii_eqb a c).
    + by rewrite IH.
    + rewrite IH. pose proof (split_on_nonempty c s).
      by destruct (split_on c s).
Qed.

Lemma split_on_rep c k :
  filter (λ f, f ≠ EmptyString) (split_on c (rep c k)) = [].
Proof.
  induction k as [|k IH]; [done|]. simpl.
  unfold ascii_eqb. rewrite bool_decide_eq_true_2 by done.
  by rewrite filter_cons_False by (by intros []).
Qed.

Lemma fields_rep_r c k s :
  filter (λ f, f ≠ EmptyString) (split_on c (s +:+ rep c k)) =
  filter (λ f, f ≠ EmptyString) (split_on c s).
Proof.
  destruct k as [|k]; simpl.
  - by rewrite append_empty_r.
  - by rewrite split_on_app_sep, filter_app, split_on_rep, app_nil_r.
Qed.

Lemma fields_rep_l c k s :
  filter (λ f, f ≠ EmptyString) (split_on c (rep c k +:+ s)) =
  filter (λ f, f ≠ EmptyString) (split_on c s).
Proof.
  induction k as [|k IH]; [done|]. simpl rep. rewrite append_String. simpl.
  unfold ascii_eqb. rewrite bool_decide_eq_true_2 by done.
  by rewrite filter_cons_False by (by intros []).
Qed.

Lemma rstrip_char_rep c s : ∃ k, s = rstrip_char c s +:+ rep c k.
Proof.
  induction s as [|a s [k IH]]; [by exists 0|]. simpl.
  destruct (rstrip_char c s) as [|b r] eqn:Hr.
  - destruct (ascii_eqb a c) eqn:Ha.
    + apply ascii_eqb_true in Ha. subst a. exists (S k). by rewrite IH.
    + exists k. by rewrite IH.
  - exists k. by rewrite append_String, <- IH.
Qed.

Lemma lstrip_char_rep c s : ∃ k, s = rep c k +:+ lstrip_char c s.
Proof.
  induction s as [|a s [k IH]]; [by exists 0|]. simpl.
  destruct (ascii_eqb a c) eqn:Ha.
  - apply ascii_eqb_true in Ha. subst a. exists (S k). simpl.
    by rewrite append_String, <- IH.
  - by exists 0.
Qed.

(** Stripping separators off either end loses no field and adds none. *)
Lemma fields_rstrip_char c s :
  filter (λ f, f ≠ EmptyString) (split_on c (rstrip_char c s)) =
  filter (λ f, f ≠ EmptyString) (split_on c s).
Proof.
  destruct (rstrip_char_rep c s) as [k Hk].
  rewrite Hk at 2. by rewrite fields_rep_r.
Qed.

Lemma fields_strip_char c s :
  filter (λ f, f ≠ EmptyString) (split_on c (strip_char c s)) =
  filter (λ f, f ≠ EmptyString) (split_on c s).
Proof.
  rewrite <- (fields_rstrip_char c s). unfold strip_char.
  destruct (lstrip_char_rep c (rstrip_char c s)) as [k Hk].
  rewrite Hk at 2. by rewrite fields_rep_l.
Qed.

Lemma fields_nul_terminated names :
  Forall file_name names →
  filter (λ f, f ≠ EmptyString) (split_on NUL (nul_terminated names)) = names.
Proof.
  induction 1 as [|n names [Hne Hnul] _ IH]; [done|]. simpl.
  rewrite split_on_app_sep, filter_app, IH.
  rewrite (split_on_no_index _ _ Hnul).
  by rewrite filter_cons_True, filter_nil.
Qed.

Section FileLists.

Variable core_decode : string → string.

(** X1: the three file listings read the output of [git] alike: the NULs
    that [diff_filenames] strips from the right and [all_files] from both
    ends change no entry, so each is what [untracked_files] makes of the
    same output. *)
Theorem file_lists_same_parse (out arg : string) :
  diff_filenames core_decode (λ _, out) arg =
    untracked_files core_decode (λ _, out) ∧
  all_files core_decode (λ _, out) =
    untracked_files core_decode (λ _, out).
Proof.
  unfold diff_filenames, all_files, untracked_files.
  by rewrite fields_rstrip_char, fields_strip_char.
Qed.

(** X2: on NUL-terminated file names, as [git -z] prints them, each listing
    returns exactly the names, decoded, in order; on empty output it
    returns the empty list. *)
Theorem file_lists_round_trip (names : list string) (arg : string) :
  Forall file_name names →
  diff_filenames core_decode (λ _, nul_terminated names) arg =
    core_decode <$> names ∧
  all_files core_decode (λ _, nul_terminated names) = core_decode <$> names ∧
  untracked_files core_decode (λ _, nul_terminated names) =
    core_decode <$> names.
Proof.
  intros Hnames. unfold diff_filenames, all_files, untracked_files.
  rewrite fields_rstrip_char, fields_strip_char.
  by rewrite (fields_nul_terminated _ Hnames).
Qed.

End FileLists.

Lemma file_lists_round_trip_witness :
  Forall file_name ["a.txt"; "b.txt"] ∧
  diff_filenames id (λ _, nul_terminated ["a.txt"; "b.txt"]) "HEAD" =
    ["a.txt"; "b.txt"] ∧
  all_files id (λ _, nul_terminated ["a.txt"; "b.txt"]) = ["a.txt"; "b.txt"] ∧
  untracked_files id (λ _, nul_terminated ["a.txt"; "b.txt"]) =
    ["a.txt"; "b.txt"].
Proof.
  assert (Forall file_name ["a.txt"; "b.txt"]) as Hnames.
  { repeat constructor; done. }
  split; [done|].
  apply (file_lists_round_trip id ["a.txt"; "b.txt"] "HEAD" Hnames).
Defined.

Example diff_filenames_empty : diff_filenames id (λ _, "") "HEAD" = [].
Proof. vm_compute. reflexivity. Qed.

(** ** Branch and tag listings *)

Lemma length_append s t :
  String.length (s +:+ t) = String.length s + String.length t.
Proof.
  induction s as [|a s IH]; [done|]. rewrite append_String. simpl. by rewrite IH.
Qed.

Lemma str_drop_append s t : str_drop (String.length s) (s +:+ t) = t.
Proof. induction s as [|a s IH]; [done|]. by rewrite append_String. Qed.

Lemma str_take_drop n s : str_take n s +:+ str_drop n s = s.
Proof.
  revert s. induction n as [|n IH]; intros [|a s]; try done.
  simpl. by rewrite append_String, IH.
Qed.

(** [s.endswith(p)] holds exactly when [s] is something followed by [p]. *)
Lemma endswith_spec s p : endswith s p = true ↔ ∃ q, s = q +:+ p.
Proof.
  unfold endswith. rewrite andb_true_iff, Nat.leb_le, str_eqb_true. split.
  - intros [_ Hdrop]. set (n := String.length s - String.length p) in *.
    exists (str_take n s). rewrite <- Hdrop. by rewrite str_take_drop.
  - intros [q ->]. rewrite length_append. split; [lia|].
    replace (String.length q + String.length p - String.length p)
      with (String.length q) by lia.
    apply str_drop_append.
Qed.

Section Listings.

Variable git_for_each_ref : string → string.

(** X3: when every enumerated line starts with the prefix asked for,
    putting the prefix back on the entries of [for_each_ref_basename] gives
    the enumerated lines that do not end in [/HEAD], in order: nothing else
    is dropped and nothing is cut short. *)
Theorem for_each_ref_basename_round_trip (refs : string) :
  Forall (λ line, startswith line refs = true)
         (splitlines (git_for_each_ref refs)) →
  (λ e, refs +:+ e) <$> for_each_ref_basename git_for_each_ref refs =
  filter (λ line, ¬ endswith line "/HEAD") (splitlines (git_for_each_ref refs)).
Proof.
  unfold for_each_ref_basename.
  induction (splitlines (git_for_each_ref refs)) as [|line lines IH];
    intros Hrefs; [done|].
  apply Forall_cons in Hrefs as [Hline Hlines].
  rewrite filter_cons. destruct (decide _) as [Hkeep|Hdrop]; [|by apply IH].
  rewrite !fmap_cons, (IH Hlines). f_equal.
  symmetry. by apply startswith_split.
Qed.

(** X4: no listing holds an entry that ends in [/HEAD]: not the remote
    branches, and not the local branches or the tags either, so a local
    branch or tag named [x/HEAD] is never listed. *)
Theorem listings_exclude_HEAD_suffix (refs e : string) :
  Forall (λ line, startswith line refs = true)
         (splitlines (git_for_each_ref refs)) →
  e ∈ for_each_ref_basename git_for_each_ref refs →
  endswith e "/HEAD" = false.
Proof.
  intros Hrefs He.
  apply for_each_ref_basename_elem in He as (line & Hline & Hend & ->).
  rewrite Forall_forall in Hrefs. apply Hrefs, startswith_split in Hline.
  apply not_true_iff_false. intros [q Hq]%endswith_spec.
  apply not_true_iff_false in Hend. apply Hend, endswith_spec.
  exists (refs +:+ q). by rewrite Hline, Hq, append_assoc.
Qed.

(** X5: a name is in [tag_list] exactly when [refs/tags/] followed by it
    was enumerated and that line does not end in [/HEAD]; the reversal
    changes the order only. *)
Theorem tag_list_elem (e : string) :
  Forall (λ line, startswith line "refs/tags/" = true)
         (splitlines (git_for_each_ref "refs/tags/")) →
  e ∈ tag_list git_for_each_ref ↔
  "refs/tags/" +:+ e ∈ splitlines (git_for_each_ref "refs/tags/") ∧
  endswith ("refs/tags/" +:+ e) "/HEAD" = false.
Proof.
  intros Hrefs. unfold tag_list. rewrite elem_of_reverse. split.
  - intros (line & Hline & Hend & ->)%for_each_ref_basename_elem.
    rewrite Forall_forall in Hrefs.
    pose proof (startswith_split _ _ (Hrefs _ Hline)) as Hsplit.
    by rewrite <- Hsplit.
  - intros [Hline Hend]. unfold for_each_ref_basename.
    apply list_elem_of_fmap. exists ("refs/tags/" +:+ e). split.
    + by rewrite (str_drop_append "refs/tags/" e).
    + apply list_elem_of_filter. split; [|done].
      intros Htrue%Is_true_true. congruence.
Qed.

End Listings.

Lemma for_each_ref_basename_round_trip_witness :
  Forall (λ line, startswith line "refs/tags/" = true)
         (splitlines (tag_refs "refs/tags/")) ∧
  (λ e, "refs/tags/" +:+ e) <$> for_each_ref_basename tag_refs "refs/tags/" =
  ["refs/tags/v1.0"; "refs/tags/v1.1"].
Proof.
  assert (Forall (λ line, startswith line "refs/tags/" = true)
                 (splitlines (tag_refs "refs/tags/"))) as Hrefs.
  { vm_compute. repeat constructor. }
  split; [done|].
  rewrite (for_each_ref_basename_round_trip tag_refs "refs/tags/" Hrefs).
  vm_compute. reflexivity.
Defined.

Lemma listings_exclude_HEAD_suffix_witness :
  Forall (λ line, startswith line "refs/tags/" = true)
         (splitlines (tag_refs "refs/tags/")) ∧
  "v1.0" ∈ for_each_ref_basename tag_refs "refs/tags/" ∧
  endswith "v1.0" "/HEAD" = false.
Proof.
  assert (Forall (λ line, startswith line "refs/tags/" = true)
                 (splitlines (tag_refs "refs/tags/"))) as Hrefs.
  { vm_compute. repeat constructor. }
  assert ("v1.0" ∈ for_each_ref_basename tag_refs "refs/tags/") as Hin.
  { vm_compute. left. }
  split_and!; [done|done|].
  apply (listings_exclude_HEAD_suffix tag_refs "refs/tags/" "v1.0" Hrefs Hin).
Defined.

Lemma tag_list_elem_witness :
  Forall (λ line, startswith line "refs/tags/" = true)
         (splitlines (tag_refs "refs/tags/")) ∧
  "v1.1" ∈ tag_list tag_refs ∧
  tag_list tag_refs = ["v1.1"; "v1.0"].
Proof.
  assert (Forall (λ line, startswith line "refs/tags/" = true)
                 (splitlines (tag_refs "refs/tags/"))) as Hrefs.
  { vm_compute. repeat constructor. }
  split_and!; [done| |vm_compute; reflexivity].
  apply (tag_list_elem tag_refs "v1.1" Hrefs). split.
  - vm_compute. right. left.
  - vm_compute. reflexivity.
Defined.

(** ** Current branch: the symbolic-ref file, errors and the cache *)

Lemma lstrip_all_space ws s : all_space ws = true → lstrip (ws +:+ s) = lstrip s.
Proof.
  induction ws as [|c ws IH]; [done|]. simpl. intros [Hc Hws]%andb_true_iff.
  rewrite ?append_String. simpl. rewrite Hc. by apply IH.
Qed.

Lemma rstrip_space ws : all_space ws = true → rstrip ws = "".
Proof.
  induction ws as [|c ws IH]; [done|]. simpl. intros [Hc Hws]%andb_true_iff.
  by rewrite (IH Hws), Hc.
Qed.

Lemma rstrip_all_space s ws : all_space ws = true → rstrip (s +:+ ws) = rstrip s.
Proof.
  intros Hws. induction s as [|c s IH].
  - by apply rstrip_space.
  - rewrite append_String. simpl. by rewrite IH.
Qed.

Lemma rstrip_clean s : ends_with_space s = false → rstrip s = s.
Proof.
  induction s as [|c s IH]; [done|]. destruct s as [|d s].
  - simpl. by intros ->.
  - intros Hs. change (ends_with_space (String d s) = false) in Hs.
    change (rstrip (String c (String d s)))
      with (match rstrip (String d s) with
            | EmptyString =>
                if is_space c then EmptyString else String c EmptyString
            | r => String c r
            end).
    by rewrite (IH Hs).
Qed.

Lemma ends_with_space_append s t :
  t ≠ "" → ends_with_space (s +:+ t) = ends_with_space t.
Proof.
  intros Ht. induction s as [|c s IH]; [done|].
  rewrite append_String. destruct (s +:+ t) as [|d u] eqn:Hst.
  - destruct s; [by destruct t | done].
  - done.
Qed.

(** [strip] undoes any blank padding of a text that neither starts nor
    ends with a blank. *)
Lemma strip_padded ws1 c core ws2 :
  all_space ws1 = true → all_space ws2 = true →
  is_space c = false → ends_with_space (String c core) = false →
  strip (ws1 +:+ String c core +:+ ws2) = String c core.
Proof.
  intros Hws1 Hws2 Hc Hend. unfold strip.
  rewrite <- append_assoc, (rstrip_all_space _ _ Hws2).
  rewrite rstrip_clean by (by rewrite ends_with_space_append).
  rewrite (lstrip_all_space _ _ Hws1). simpl. by rewrite Hc.
Qed.

(** X6: a regular HEAD file that holds [ref: refs/heads/<name>], with any
    blanks around it, gives [<name>] when the cache does not answer: the
    content is read once and the name is cached under the file's
    modification time. *)
Theorem current_branch_symbolic_ref (fs : filesystem) (c : cache) (m : Z)
    (ws1 name ws2 : string) :
  fs_islink fs = false →
  fs_isfile fs = true →
  fs_stat fs = Some m →
  st_mtime c ≠ m →
  fs_slurp fs = ws1 +:+ ref_prefix +:+ name +:+ ws2 →
  all_space ws1 = true →
  all_space ws2 = true →
  ends_with_space name = false →
  run (current_branch fs) c =
  (Ok (PyStr name),
   World (Cache m (PyStr name)) [EvStat; EvIslink; EvIsfile; EvSlurp]).
Proof.
  intros Hlink Hfile Hstat Hmiss Hslurp Hws1 Hws2 Hname.
  assert (strip (fs_slurp fs) = ref_prefix +:+ name) as Hstrip.
  { rewrite Hslurp, <- (append_assoc ref_prefix).
    change (ref_prefix +:+ name)
      with (String "r" ("ef: refs/heads/" +:+ name)).
    apply strip_padded; [done|done|done|].
    change (String "r" ("ef: refs/heads/" +:+ name))
      with (ref_prefix +:+ name).
    destruct name as [|a name]; [done|].
    by rewrite ends_with_space_append. }
  run_query. rewrite Hstat, Hlink, Hfile, Hstrip.
  rewrite bool_decide_eq_false_2 by done.
  rewrite startswith_app, (str_drop_append ref_prefix name). done.
Qed.

Lemma current_branch_symbolic_ref_witness :
  run (current_branch symbolic_master) (Cache 5%Z (PyStr "topic")) =
  (Ok (PyStr "master"),
   World (Cache 1700000000%Z (PyStr "master"))
         [EvStat; EvIslink; EvIsfile; EvSlurp]).
Proof.
  apply (current_branch_symbolic_ref symbolic_master (Cache 5%Z (PyStr "topic"))
           1700000000%Z "" "master" NL); done.
Defined.

(** X7: [current_branch] raises nothing but UnboundLocalError, and raises
    it exactly when [os.stat] failed and HEAD is then found to be a link
    under [refs/heads] or a regular file: the local [st] is read without
    having been bound.  Where [os.stat] succeeds it always returns. *)
Theorem current_branch_raises (fs : filesystem) (c : cache) (e : exn) :
  (run (current_branch fs) c).1 = Raise e ↔
  e = UnboundLocalError ∧ fs_stat fs = None ∧
  (link_into_refs_heads fs = true ∨
   (fs_islink fs = false ∧ fs_isfile fs = true)).
Proof.
  unfold link_into_refs_heads. run_query.
  destruct (fs_stat fs) as [m|]; cbn [local_st].
  - destruct (bool_decide _), (fs_islink fs), (startswith _ _),
      (fs_isfile fs); cbn; split; try done; by intros (_ & ? & _).
  - destruct (fs_islink fs), (startswith _ _), (fs_isfile fs); cbn;
      split; try done;
      try (intros [= <-]; split_and!; auto; done);
      try (by intros (-> & _ & _));
      by intros (_ & _ & [?|[? ?]]).
Qed.

Example current_branch_unbound_st :
  (run (current_branch head_vanished) initial_cache).1 =
  Raise UnboundLocalError.
Proof. vm_compute. reflexivity. Qed.

(** X8: a call that returns leaves the cache as it was, or leaves in it
    the value it returned together with the modification time [os.stat]
    gave: the cache never pairs a value with the time of another read. *)
Theorem current_branch_cache_update (fs : filesystem) (c : cache)
    (v : pyval) (w : world) :
  run (current_branch fs) c = (Ok v, w) →
  branch_cache w = c ∨
  (fs_stat fs = Some (st_mtime (branch_cache w)) ∧ value (branch_cache w) = v).
Proof.
  run_query. destruct c as [t old]. cbn [st_mtime value].
  destruct (fs_stat fs) as [m|]; cbn [local_st];
    split_tests; cbn; intros [= <- <-]; cbn; auto.
Qed.

Lemma current_branch_cache_update_witness :
  run (current_branch symbolic_master) initial_cache =
    (Ok (PyStr "master"),
     World (Cache 1700000000%Z (PyStr "master"))
           [EvStat; EvIslink; EvIsfile; EvSlurp]) ∧
  (Cache 1700000000%Z (PyStr "master") = initial_cache ∨
   (fs_stat symbolic_master = Some 1700000000%Z ∧
    PyStr "master" = PyStr "master")).
Proof.
  split; [vm_compute; reflexivity|].
  apply (current_branch_cache_update symbolic_master initial_cache
           (PyStr "master")
           (World (Cache 1700000000%Z (PyStr "master"))
                  [EvStat; EvIslink; EvIsfile; EvSlurp])).
  vm_compute. reflexivity.
Defined.

(** X9: the content of HEAD is read exactly when the cache does not
    answer and HEAD is a regular file that is no symbolic link; a
    symbolic-link HEAD is never read. *)
Theorem current_branch_reads_content (fs : filesystem) (c : cache) :
  EvSlurp ∈ fs_log (run (current_branch fs) c).2 ↔
  cache_miss fs c ∧ fs_islink fs = false ∧ fs_isfile fs = true.
Proof.
  unfold cache_miss. run_query.
  destruct (fs_stat fs) as [m|]; cbn [local_st]; split_tests; cbn;
    (split; [intros Hin | intros (Hmiss & Hl & Hf)]);
    try discriminate;
    try (exfalso; revert Hin; no_slurp);
    try (rewrite !elem_of_cons; tauto).
  - exfalso. apply (Hmiss m eq_refl).
    match goal with H : bool_decide _ = true |- _ =>
      by apply bool_decide_eq_true in H end.
  - split_and!; [|done|done]. intros m' [= <-].
    match goal with H : bool_decide _ = false |- _ =>
      by apply bool_decide_eq_false in H end.
  - split_and!; [|done|done]. intros m' [= <-].
    match goal with H : bool_decide _ = false |- _ =>
      by apply bool_decide_eq_false in H end.
  - split_and!; [|done|done]. by intros m'.
Qed.

(** ** Tracking and remote references *)

(** X10: a branch whose remote parameter is a non-empty name and whose
    merge parameter is [refs/heads/<suffix>] is tracked as
    [<remote>/<suffix>]; the state is left alone. *)
Theorem tracked_branch_tracking (params : gmap string string)
    (fs : filesystem) (b remote suffix : string) (w : world) :
  params !! ("local_branch_" +:+ b +:+ "_remote") = Some remote →
  remote ≠ "" →
  params !! ("local_branch_" +:+ b +:+ "_merge") =
    Some ("refs/heads/" +:+ suffix) →
  tracked_branch params fs (PyStr b) w = (Ok (remote +:+ "/" +:+ suffix), w).
Proof.
  intros Hremote Hne Hmerge.
  unfold tracked_branch, mbind, M_bind, mret, M_ret. cbn beta iota.
  change (fmt_s (PyStr b)) with b. rewrite Hremote, Hmerge.
  destruct remote as [|a remote]; [done|]. cbn [truthy negb].
  unfold refs_heads_prefix.
  by rewrite startswith_app, (str_drop_append "refs/heads/" suffix).
Qed.

Lemma tracked_branch_tracking_witness :
  tracked_branch tracking_params symbolic_master (PyStr "master")
                 (World initial_cache []) =
  (Ok "origin/master", World initial_cache []).
Proof.
  apply (tracked_branch_tracking tracking_params symbolic_master
           "master" "origin" "master"); done.
Defined.

Lemma first_equal_spec x l :
  first_equal x l = if bool_decide (x ∈ l) then Some x else None.
Proof.
  induction l as [|y l IH]; [done|]. simpl.
  destruct (str_eqb y x) eqn:Hy.
  - apply str_eqb_true in Hy. subst y.
    by rewrite bool_decide_eq_true_2 by left.
  - rewrite IH. assert (y ≠ x) as Hne.
    { intros ->. unfold str_eqb in Hy.
      by rewrite bool_decide_eq_true_2 in Hy. }
    rewrite (bool_decide_ext (x ∈ y :: l) (x ∈ l)); [done|].
    rewrite elem_of_cons. split; [by intros [->|]|by right].
Qed.

(** A second call on the same file system returns what the first did. *)
Lemma current_branch_again fs m w v w1 :
  fs_stat fs = Some m →
  current_branch fs w = (Ok v, w1) →
  ∃ w2, current_branch fs w1 = (Ok v, w2).
Proof.
  intros Hst. run_query. rewrite Hst. cbn [local_st].
  destruct w as [[t old] log]. cbn [branch_cache st_mtime value fs_log].
  destruct (bool_decide (t = m)) eqn:Hhit;
    [|destruct (fs_islink fs);
      [destruct (startswith _ _)|destruct (fs_isfile fs)]];
    cbn; intros [= <- <-]; cbn;
    rewrite ?Hhit, ?bool_decide_eq_true_2 by done; by eexists.
Qed.

Lemma current_branch_returns fs m w :
  fs_stat fs = Some m → ∃ v w1, current_branch fs w = (Ok v, w1).
Proof.
  intros Hst. run_query. rewrite Hst. cbn [local_st].
  split_tests; by do 2 eexists.
Qed.

Section RemoteRef.

Variable git_for_each_ref : string → string.
Variable local_config : string → string → string.

(** X11: where [os.stat] finds HEAD, [corresponding_remote_ref] returns
    [<remote>/<branch>] if that is a listed remote branch, else the first
    listed remote branch, else (none listed) the remote alone; [<branch>]
    is what [current_branch] gives and [<remote>] the configured
    [branch.<branch>.remote], [origin] by default. *)
Theorem corresponding_remote_ref_spec (fs : filesystem) (m : Z) (w : world) :
  fs_stat fs = Some m →
  ∃ v w1 w',
    current_branch fs w = (Ok v, w1) ∧
    let remote :=
      local_config ("branch." +:+ fmt_s v +:+ ".remote") "origin" in
    let best_match := remote +:+ "/" +:+ fmt_s v in
    let remote_branches := branch_list git_for_each_ref true in
    corresponding_remote_ref git_for_each_ref local_config fs w =
    (Ok (if bool_decide (best_match ∈ remote_branches) then best_match
         else default remote (head remote_branches)), w').
Proof.
  intros Hst.
  destruct (current_branch_returns fs m w Hst) as (v & w1 & Hv).
  destruct (current_branch_again fs m w v w1 Hst Hv) as (w2 & Hv2).
  exists v, w1, w2. split; [done|]. cbn zeta.
  unfold corresponding_remote_ref, default_remote, mbind, M_bind, mret, M_ret.
  rewrite Hv, Hv2. rewrite first_equal_spec.
  destruct (branch_list git_for_each_ref true) as [|rb0 rbs] eqn:Hlist.
  - rewrite bool_decide_eq_true_2 by done.
    rewrite bool_decide_eq_false_2 by apply not_elem_of_nil. done.
  - rewrite (bool_decide_eq_false_2 (_ = [])) by done.
    by case_bool_decide.
Qed.

End RemoteRef.

Lemma corresponding_remote_ref_spec_witness :
  fs_stat symbolic_master = Some 1700000000%Z ∧
  (run (corresponding_remote_ref remote_refs no_local_config symbolic_master)
       initial_cache).1 = Ok "origin/master".
Proof.
  split; [done|].
  destruct (corresponding_remote_ref_spec remote_refs no_local_config
              symbolic_master 1700000000%Z (World initial_cache []) eq_refl)
    as (v & w1 & w' & Hv & Hr).
  unfold run. rewrite Hr.
  vm_compute in Hv. injection Hv as <- <-. vm_compute. reflexivity.
Defined.

(** ** Diff engine: how the lines are sorted into header and body *)

Lemma with_line_ends_app l1 l2 :
  with_line_ends (l1 ++ l2) = with_line_ends l1 +:+ with_line_ends l2.
Proof.
  induction l1 as [|l l1 IH]; [done|]. simpl.
  by rewrite IH, !append_assoc.
Qed.

(** Joining the lines of a text again gives the text and one line end. *)
Lemma with_line_ends_split s : with_line_ends (split_on LF s) = s +:+ NL.
Proof.
  induction s as [|c s IH]; [reflexivity|]. simpl split_on.
  destruct (ascii_eqb c LF) eqn:Hc.
  - apply ascii_eqb_true in Hc. subst c.
    cbn [with_line_ends]. rewrite IH. reflexivity.
  - pose proof (split_on_nonempty LF s) as Hne.
    destruct (split_on LF s) as [|h t]; [done|].
    cbn [with_line_ends] in *. by rewrite !append_String, IH.
Qed.

Section DiffLines.

Variable core_encode : string → string.
Variable deleted with_diff_header suppress_header : bool.

Local Abbreviation step :=
  (diff_line core_encode deleted with_diff_header suppress_header).

(** Once a hunk has started every line goes to the body. *)
Lemma diff_lines_started lines :
  ∀ acc, acc_start acc = true →
         foldl step acc lines =
         DiffAcc true (acc_headers acc)
                 (acc_output acc +:+ with_line_ends (core_encode <$> lines)).
Proof.
  induction lines as [|l lines IH]; intros [start headers output] Hstart.
  - simpl in *. subst. by rewrite append_empty_r.
  - simpl in Hstart. subst start. simpl foldl.
    unfold diff_line at 2. cbn [acc_start acc_headers acc_output orb].
    rewrite IH by done. cbn [acc_headers acc_output].
    by rewrite fmap_cons, !append_assoc.
Qed.

(** Before the first hunk marker, a line goes to the body if it is a
    deletion notice or if the header is neither split off nor suppressed,
    and to the header if the header is split off. *)
Lemma diff_lines_header pre :
  ∀ acc, acc_start acc = false →
         Forall (λ l, hunk_marker l = false) pre →
         foldl step acc pre =
         DiffAcc false
           (acc_headers acc ++
            if with_diff_header
            then core_encode <$> filter (λ l, ¬ deletion_notice deleted l) pre
            else [])
           (acc_output acc +:+
            with_line_ends
              (core_encode <$>
                 if negb with_diff_header && negb suppress_header then pre
                 else filter (deletion_notice deleted) pre)).
Proof.
  induction pre as [|l pre IH]; intros [start headers output] Hstart Hpre.
  - simpl in *. subst.
    by destruct with_diff_header, suppress_header; simpl;
      rewrite ?filter_nil, ?append_empty_r, ?app_nil_r.
  - simpl in Hstart. subst start.
    apply Forall_cons in Hpre as [Hl Hpre]. simpl foldl.
    unfold diff_line at 2. cbn [acc_start acc_headers acc_output orb].
    unfold hunk_marker in Hl. rewrite Hl. cbn [orb].
    destruct (decide (deletion_notice deleted l)) as [Hdel|Hdel].
    + rewrite (filter_cons_True (deletion_notice deleted)) by done.
      rewrite (filter_cons_False (λ l, ¬ deletion_notice deleted l))
        by (by intros ?).
      unfold deletion_notice in Hdel. rewrite Hdel.
      rewrite IH by done. cbn [acc_headers acc_output].
      destruct with_diff_header, suppress_header; cbn [negb andb];
        by rewrite fmap_cons, ?append_assoc.
    + rewrite (filter_cons_False (deletion_notice deleted)) by done.
      rewrite (filter_cons_True (λ l, ¬ deletion_notice deleted l)) by done.
      unfold deletion_notice in Hdel. apply not_true_iff_false in Hdel.
      rewrite Hdel.
      destruct with_diff_header, suppress_header; cbn [negb andb];
        rewrite IH by done; cbn [acc_headers acc_output negb andb];
        by rewrite ?fmap_cons, ?append_assoc, <- ?app_assoc.
Qed.

(** The whole loop on lines that reach their first hunk marker after
    [pre]. *)
Lemma diff_lines_split pre post :
  Forall (λ l, hunk_marker l = false) pre →
  starts_at_hunk post →
  let acc := foldl step (DiffAcc false [] "") (pre ++ post) in
  acc_headers acc =
    (if with_diff_header
     then core_encode <$> filter (λ l, ¬ deletion_notice deleted l) pre
     else []) ∧
  acc_output acc =
    with_line_ends
      (core_encode <$>
         (if negb with_diff_header && negb suppress_header then pre
          else filter (deletion_notice deleted) pre) ++ post).
Proof.
  intros Hpre Hpost. cbn zeta. rewrite foldl_app.
  rewrite (diff_lines_header pre (DiffAcc false [] "") eq_refl Hpre).
  cbn [acc_headers acc_output app].
  change ("" +:+ ?s) with s.
  destruct post as [|h post].
  - simpl. by rewrite app_nil_r.
  - specialize (Hpost h eq_refl). simpl foldl.
    match goal with |- context [foldl _ (diff_line _ _ _ _ ?acc h) post] =>
      assert (diff_line core_encode deleted with_diff_header suppress_header
                acc h =
              DiffAcc true (acc_headers acc)
                      (acc_output acc +:+ core_encode h +:+ NL)) as ->
    end.
    { unfold diff_line. cbn [acc_start acc_headers acc_output orb].
      unfold hunk_marker in Hpost. by rewrite Hpost. }
    rewrite diff_lines_started by done. cbn [acc_headers acc_output].
    split; [done|].
    by rewrite fmap_app, with_line_ends_app, fmap_cons, !append_assoc.
Qed.

End DiffLines.

Lemma hunk_decomposition lines :
  ∃ pre post, lines = pre ++ post ∧
              Forall (λ l, hunk_marker l = false) pre ∧ starts_at_hunk post.
Proof.
  induction lines as [|l lines (pre & post & -> & Hpre & Hpost)].
  - exists [], []. split_and!; [done|done|by intros h].
  - destruct (hunk_marker l) eqn:Hl.
    + exists [], (l :: pre ++ post). split_and!; [done|done|].
      by intros h [= <-].
    + exists (l :: pre), post. split_and!; [done| |done]. by constructor.
Qed.

Section DiffSorting.

Variable diff_context : Z.
Variable git_diff : bool → bool → Z → list string → string.
Variable core_decode core_encode : string → string.
Variable path_exists : filename_arg → bool.

(** X12: on output that is no [fatal:] message, [diff_helper] sorts the
    decoded lines around the first hunk marker.  Lines from the marker on
    are body.  Of the lines before it, deletion notices (when the diff is
    cached and the path is gone) are body; the others are the header when
    it is split off, are dropped when it is suppressed, and are body
    otherwise.  The body lines are written with a line end each, the
    header lines are joined by line ends. *)
Theorem diff_helper_sorts_lines commit branch ref endref filename cached
    with_diff_header suppress_header reverse (pre post : list string) :
  let out := git_diff reverse cached diff_context
               (diff_argv commit branch ref endref filename) in
  let deleted := cached && negb (path_exists filename) in
  startswith out "fatal:" = false →
  core_decode <$> split_on LF out = pre ++ post →
  Forall (λ l, hunk_marker l = false) pre →
  starts_at_hunk post →
  diff_helper diff_context git_diff core_decode core_encode path_exists
    commit branch ref endref filename cached with_diff_header suppress_header
    reverse =
  if with_diff_header then
    HeaderAndText
      (join NL (core_encode <$>
                  filter (λ l, ¬ deletion_notice deleted l) pre))
      (core_decode
         (with_line_ends
            (core_encode <$> filter (deletion_notice deleted) pre ++ post)))
  else
    Text
      (core_decode
         (with_line_ends
            (core_encode <$>
               (if suppress_header then filter (deletion_notice deleted) pre
                else pre) ++ post))).
Proof.
  intros out deleted Hfatal Hlines Hpre Hpost.
  unfold diff_helper. fold out. fold deleted. rewrite Hfatal, Hlines.
  destruct (diff_lines_split core_encode deleted with_diff_header
              suppress_header pre post Hpre Hpost) as [Hheaders Houtput].
  rewrite Hheaders, Houtput.
  by destruct with_diff_header, suppress_header.
Qed.

(** X13: with the header neither split off nor suppressed, and
    [core.encode] mapping each line of the output back from its decoding
    ([encode (decode l) = l] for the lines [l] of this output, whatever
    the two do elsewhere), [diff_helper] returns the whole output of
    [git diff] decoded, with one line end added. *)
Theorem diff_helper_whole_output commit branch ref endref filename cached
    reverse :
  let out := git_diff reverse cached diff_context
               (diff_argv commit branch ref endref filename) in
  startswith out "fatal:" = false →
  Forall (λ l, core_encode (core_decode l) = l) (split_on LF out) →
  diff_helper diff_context git_diff core_decode core_encode path_exists
    commit branch ref endref filename cached false false reverse =
  Text (core_decode (out +:+ NL)).
Proof.
  intros out Hfatal Hcodec.
  destruct (hunk_decomposition (core_decode <$> split_on LF out))
    as (pre & post & Hlines & Hpre & Hpost).
  unfold diff_helper. fold out. rewrite Hfatal, Hlines.
  destruct (diff_lines_split core_encode
              (cached && negb (path_exists filename)) false false
              pre post Hpre Hpost) as [_ Houtput].
  rewrite Houtput. cbn [negb andb]. rewrite <- Hlines, <- list_fmap_compose.
  rewrite (list_fmap_ext (core_encode ∘ core_decode) id).
  - by rewrite list_fmap_id, with_line_ends_split.
  - rewrite Forall_lookup in Hcodec. intros i l Hl. by apply (Hcodec i).
Qed.

End DiffSorting.

Lemma diff_helper_sorts_lines_witness :
  diff_helper 3 deletion_diff id id (λ _, false)
    PyNone PyNone PyNone PyNone (OneFile "x") true true true false =
  HeaderAndText
    ("diff --git a/x b/x" +:+ NL +:+ "index e69de29..0000000")
    ("deleted file mode 100644" +:+ NL).
Proof.
  apply (diff_helper_sorts_lines 3 deletion_diff id id (λ _, false)
           PyNone PyNone PyNone PyNone (OneFile "x") true true true false
           ["diff --git a/x b/x"; "deleted file mode 100644";
            "index e69de29..0000000"] []).
  - vm_compute. reflexivity.
  - vm_compute. reflexivity.
  - repeat constructor.
  - by intros h.
Defined.

Lemma diff_helper_whole_output_witness :
  diff_helper 3 plain_diff id id (λ _, true)
    (PyStr "1a2b3c") PyNone PyNone PyNone NoFile false false false false =
  Text ("diff --git a/x b/x" +:+ NL +:+ "@@ -1 +1 @@" +:+ NL +:+
        "-a" +:+ NL +:+ "+b" +:+ NL).
Proof.
  apply (diff_helper_whole_output 3 plain_diff id id (λ _, true)
           (PyStr "1a2b3c") PyNone PyNone PyNone NoFile false false).
  - vm_compute. reflexivity.
  - vm_compute. repeat constructor.
Defined.

(** ** Patch-set exporter: what holds for every selection *)

Lemma group_step_concat revs g rev g' :
  grouping_ok g →
  group_step revs g rev = Ok g' →
  List.concat (patches_to_export g') = List.concat (patches_to_export g) ++ [rev] ∧
  List.length (patches_to_export g') ≤ S (List.length (patches_to_export g)).
Proof.
  intros [Hidx Hne]. unfold group_step.
  destruct (list_index rev _) as [i|]; [|done].
  case_bool_decide.
  - destruct (patches_to_export g !! patchset_idx g) as [patchset|] eqn:Hp;
      [|done].
    intros [= <-]. cbn [patches_to_export].
    rewrite length_insert. split; [|lia].
    rewrite <- (take_drop_middle _ _ _ Hp) at 2.
    rewrite <- (take_drop_middle _ _ _ Hp) at 1.
    rewrite drop_ge by lia.
    rewrite insert_app_r_alt by (rewrite length_take; lia).
    rewrite length_take, Nat.min_l, Nat.sub_diag by lia. simpl.
    rewrite !concat_app. simpl. by rewrite !app_nil_r, app_assoc.
  - intros [= <-]. cbn [patches_to_export]. rewrite length_app. simpl.
    split; [|lia]. rewrite concat_app. simpl. by rewrite ?app_nil_r.
Qed.

Lemma group_loop_concat revs rest :
  ∀ g g', grouping_ok g →
          group_loop revs g rest = Ok g' →
          List.concat (patches_to_export g') =
            List.concat (patches_to_export g) ++ rest ∧
          List.length (patches_to_export g') ≤
            List.length (patches_to_export g) + List.length rest.
Proof.
  induction rest as [|rev rest IH]; intros g g' Hok Hloop.
  - injection Hloop as <-. rewrite app_nil_r. split; [done|]. simpl. lia.
  - cbn [group_loop] in Hloop.
    destruct (group_step revs g rev) as [g1|] eqn:Hstep; [|done].
    cbn [mbind outcome_bind] in Hloop.
    destruct (group_step_concat _ _ _ _ Hok Hstep) as [Hcat Hlen].
    assert (grouping_ok g1) as Hok1.
    { unfold group_step in Hstep.
      destruct (list_index rev _) as [i|] eqn:Hi; [|done].
      destruct (group_step_found _ _ _ _ Hok Hi) as (g2 & Hstep2 & Hok2 & _).
      unfold group_step in Hstep2. rewrite Hi in Hstep2.
      rewrite Hstep in Hstep2. by injection Hstep2 as ->. }
    destruct (IH _ _ Hok1 Hloop) as [Hcat' Hlen'].
    rewrite Hcat', Hcat, <- app_assoc. split; [done|]. simpl. lia.
Qed.

(** X14: whenever the grouping returns, whatever [revs] holds, its runs
    are the selection cut into pieces: concatenated they give the selection
    back, in order and with nothing lost or repeated; no run is empty, and
    there are no more runs than selected revisions. *)
Theorem group_patchsets_partition (to_export revs : list string)
    (runs : list (list string)) :
  group_patchsets to_export revs = Ok runs →
  List.concat runs = to_export ∧
  Forall (λ run, run ≠ []) runs ∧
  List.length runs ≤ List.length to_export.
Proof.
  intros Hruns. split_and!.
  - destruct to_export as [|cur_rev rest]; [done|]. simpl in Hruns.
    destruct (list_index cur_rev revs) as [idx|]; [|done].
    destruct (group_loop _ _ _) as [g|] eqn:Hloop; [|done].
    injection Hruns as <-.
    by destruct (group_loop_concat _ _ _ _ (initial_grouping_ok idx cur_rev)
                   Hloop) as [-> _].
  - by eapply group_patchsets_nonempty.
  - destruct to_export as [|cur_rev rest]; [done|]. simpl in Hruns.
    destruct (list_index cur_rev revs) as [idx|]; [|done].
    destruct (group_loop _ _ _) as [g|] eqn:Hloop; [|done].
    injection Hruns as <-.
    by destruct (group_loop_concat _ _ _ _ (initial_grouping_ok idx cur_rev)
                   Hloop) as [_ Hlen].
Qed.

Lemma group_patchsets_partition_witness :
  group_patchsets ["r1"; "r2"; "r4"] five_revs = Ok [["r1"; "r2"]; ["r4"]] ∧
  List.concat [["r1"; "r2"]; ["r4"]] = ["r1"; "r2"; "r4"] ∧
  Forall (λ run : list string, run ≠ []) [["r1"; "r2"]; ["r4"]] ∧
  List.length [["r1"; "r2"]; ["r4"]] ≤ List.length ["r1"; "r2"; "r4"].
Proof.
  assert (group_patchsets ["r1"; "r2"; "r4"] five_revs =
          Ok [["r1"; "r2"]; ["r4"]]) as Hruns by (vm_compute; reflexivity).
  split; [done|].
  apply (group_patchsets_partition ["r1"; "r2"; "r4"] five_revs
           [["r1"; "r2"]; ["r4"]] Hruns).
Defined.

(** A selection without repeats whose lookups all succeed follows the
    order of [revs]. *)
Lemma found_from_sublist revs rest :
  ∀ cur prev,
    revs !! cur = Some prev →
    prev ∉ rest →
    NoDup rest →
    found_from revs cur rest →
    rest `sublist_of` drop (S cur) revs.
Proof.
  induction rest as [|rev rest IH]; intros cur prev Hprev Hnotin Hnd Hfound.
  - apply sublist_nil_l.
  - inversion Hfound as [|? ? ? i _ Hi Hrest]; subst.
    apply NoDup_cons in Hnd as [Hrev Hnd].
    apply list_index_lookup in Hi as Hlook. rewrite lookup_drop in Hlook.
    destruct i as [|i].
    { rewrite Nat.add_0_r, Hprev in Hlook. injection Hlook as ->.
      exfalso. apply Hnotin. left. }
    apply sublist_cons_l.
    exists (take i (drop (S cur) revs)), (drop (S i) (drop (S cur) revs)).
    split.
    + symmetry. apply take_drop_middle. rewrite lookup_drop.
      by replace (S cur + i) with (cur + S i) by lia.
    + rewrite drop_drop. replace (S cur + S i) with (S (S i + cur)) by lia.
      apply (IH (S i + cur) rev); [|done|done|done].
      by replace (S i + cur) with (cur + S i) by lia.
Qed.

Section PatchOrder.

Variable git_format_patch : string → string → format_patch_kwargs → Z * string.

(** X15: for a revision list and a selection that both hold no revision
    twice, [format_patchsets] returns a result exactly when the selection
    is non-empty and follows the order of the revision list; a selection
    that is out of order, or that names a revision that is not listed,
    raises instead. *)
Theorem format_patchsets_needs_order (to_export revs : list string)
    (output : string) :
  NoDup revs →
  NoDup to_export →
  (∃ r, format_patchsets git_format_patch to_export revs output = Ok r) ↔
  to_export ≠ [] ∧ to_export `sublist_of` revs.
Proof.
  intros Hrevs Hsel. split.
  - intros [r Hr]. unfold format_patchsets in Hr.
    destruct (group_patchsets to_export revs) as [runs|] eqn:Hruns; [|done].
    apply group_patchsets_returns in Hruns.
    destruct to_export as [|x rest]; [done|]. split; [done|].
    destruct Hruns as (idx & Hidx & Hfound).
    apply NoDup_cons in Hsel as [Hx Hrest].
    apply list_index_lookup in Hidx.
    apply sublist_cons_l. exists (take idx revs), (drop (S idx) revs). split.
    + symmetry. by apply take_drop_middle.
    + by apply (found_from_sublist revs rest idx x).
  - intros [Hne Hsub]. destruct to_export as [|x rest]; [done|].
    unfold format_patchsets.
    rewrite (group_patchsets_runs revs Hrevs x rest Hsub).
    cbn [mbind outcome_bind].
    pose proof (runs_from_spec revs Hrevs rest x) as Hspec.
    destruct (runs_from revs x rest) as [run runs].
    destruct Hspec as (_ & Hhead & Hruns & _). cbn [fst snd].
    rewrite export_loop_nonempty; [by eexists|].
    constructor; [by destruct run | done].
Qed.

(** X16: the status [format_patchsets] returns is zero exactly when the
    export of every run returned zero; a failure of any run is never
    lost, even though the later runs are still exported. *)
Theorem format_patchsets_status_zero (to_export revs : list string)
    (output : string) (runs : list (list string)) (status : Z) (text : string) :
  group_patchsets to_export revs = Ok runs →
  format_patchsets git_format_patch to_export revs output = Ok (status, text) →
  status = 0%Z ↔
  Forall (λ run, (run_result git_format_patch run).1 = 0%Z) runs.
Proof.
  intros Hruns. unfold format_patchsets. rewrite Hruns.
  cbn [mbind outcome_bind].
  rewrite export_loop_nonempty by by eapply group_patchsets_nonempty.
  intros [= <- _]. cbn [bool_decide]. clear Hruns.
  induction runs as [|run runs IH].
  - split; [by constructor | done].
  - rewrite !fmap_cons, first_nonzero_cons, Forall_cons.
    case_bool_decide as Hz; [|tauto]. rewrite <- IH. tauto.
Qed.

End PatchOrder.

Lemma format_patchsets_needs_order_witness :
  NoDup five_revs ∧ NoDup ["r4"; "r1"] ∧
  ¬ ["r4"; "r1"] `sublist_of` five_revs ∧
  format_patchsets sample_format_patch ["r4"; "r1"] five_revs "out" =
    Raise ValueError.
Proof.
  assert (NoDup five_revs) as Hrevs.
  { apply (bool_decide_unpack (NoDup five_revs)). vm_compute. exact I. }
  assert (NoDup ["r4"; "r1"]) as Hsel.
  { apply (bool_decide_unpack (NoDup ["r4"; "r1"])). vm_compute. exact I. }
  assert (format_patchsets sample_format_patch ["r4"; "r1"] five_revs "out" =
          Raise ValueError) as Hraise by (vm_compute; reflexivity).
  split_and!; [done|done| |done].
  intros Hsub.
  destruct (proj2 (format_patchsets_needs_order sample_format_patch
                     ["r4"; "r1"] five_revs "out" Hrevs Hsel))
    as [r Hr]; [by split|].
  by rewrite Hraise in Hr.
Defined.

Lemma format_patchsets_status_zero_witness :
  group_patchsets ["r1"; "r2"] five_revs = Ok [["r1"; "r2"]] ∧
  format_patchsets sample_format_patch ["r1"; "r2"] five_revs "out" =
    Ok (0%Z, "exported r1^..r2") ∧
  Forall (λ run, (run_result sample_format_patch run).1 = 0%Z) [["r1"; "r2"]].
Proof.
  assert (group_patchsets ["r1"; "r2"] five_revs = Ok [["r1"; "r2"]]) as Hruns
    by (vm_compute; reflexivity).
  assert (format_patchsets sample_format_patch ["r1"; "r2"] five_revs "out" =
          Ok (0%Z, "exported r1^..r2")) as Hres by (vm_compute; reflexivity).
  split_and!; [done|done|].
  by apply (format_patchsets_status_zero sample_format_patch
              ["r1"; "r2"] five_revs "out" [["r1"; "r2"]] 0%Z
              "exported r1^..r2" Hruns Hres).
Defined.

Lemma runs_from_block revs rest :
  NoDup revs →
  ∀ pre x post,
    revs = pre ++ x :: rest ++ post →
    runs_from revs x rest = (x :: rest, []).
Proof.
  intros Hnd. induction rest as [|y rest IH]; intros pre x post Hrevs; [done|].
  cbn [runs_from].
  rewrite (IH (pre ++ [x]) y post) by (by rewrite Hrevs, <- app_assoc).
  assert (adjacentb revs x y = true) as ->; [|done].
  apply (adjacentb_spec revs Hnd). exists (List.length pre). rewrite Hrevs.
  split; [by apply list_lookup_middle|].
  replace (pre ++ x :: (y :: rest) ++ post)
    with ((pre ++ [x]) ++ y :: rest ++ post) by (by rewrite <- app_assoc).
  apply list_lookup_middle. rewrite length_app. simpl. lia.
Qed.

Section PatchBlock.

Variable git_format_patch : string → string → format_patch_kwargs → Z * string.

(** X17: a selection that is one unbroken stretch of a duplicate-free
    revision list is exported as a single series: one call for the range
    from the parent of its first revision to its last, into [patches],
    numbered when it holds more than one revision, threaded and with the
    diffstat; the status and log of that call are the result. *)
Theorem format_patchsets_block (pre post rest : list string) (x output : string) :
  NoDup (pre ++ x :: rest ++ post) →
  format_patchsets git_format_patch (x :: rest) (pre ++ x :: rest ++ post)
                   output =
  Ok (git_format_patch "patches" (x +:+ "^.." +:+ default x (last rest))
        (Kwargs (bool_decide (rest ≠ [])) true true)).
Proof.
  intros Hnd. unfold format_patchsets.
  rewrite (group_patchsets_runs _ Hnd).
  2: { apply sublist_inserts_l.
       change (x :: rest ++ post) with ((x :: rest) ++ post).
       by apply sublist_inserts_r. }
  rewrite (runs_from_block _ rest Hnd pre x post eq_refl). cbn [fst snd].
  cbn [mbind outcome_bind export_loop].
  rewrite export_step_nonempty by done. cbn [mbind outcome_bind].
  unfold run_result, export_patchset. cbn [head default].
  rewrite last_cons.
  replace (bool_decide (1 < List.length (x :: rest)))
    with (bool_decide (rest ≠ [])).
  2: { apply bool_decide_ext. destruct rest; simpl; [|split; [lia|done]].
       split; [done|lia]. }
  destruct (last rest) as [final|]; cbn [default];
    by destruct (git_format_patch _ _ _).
Qed.

End PatchBlock.

Lemma format_patchsets_block_witness :
  NoDup five_revs ∧
  format_patchsets sample_format_patch ["r2"; "r3"; "r4"] five_revs "out" =
  Ok (0%Z, "exported r2^..r4").
Proof.
  assert (NoDup five_revs) as Hnd.
  { apply (bool_decide_unpack (NoDup five_revs)). vm_compute. exact I. }
  split; [done|].
  exact (format_patchsets_block sample_format_patch ["r1"] ["r5"]
           ["r3"; "r4"] "r2" "out" Hnd).
Defined.
